(** * Vegas Tunnel signal engine: EMA, indicator snapshot, detector, targets

    Shallow embedding of [technical-analysis.ts] (the file that exports
    [calculateEMA], [calculateIndicators], [VegasTunnel] and
    [calculateFibonacciTargets]) together with the record types of
    [types.ts] that it uses, the part of [analyzeSymbol] ([index.ts]) that
    follows the retrieval of the candles, and [normalizeSymbol] with the
    symbol table of [price-data.ts].

    Numbers.  A TypeScript [number] is modelled by an exact rational
    ([Q]), as in the specification, which speaks of real prices.  The
    code computes in binary64, where every [+], [*] and [/] rounds; NaN and
    the infinities are outside the rational model.  The statements proved
    on the rational model are therefore of two kinds only: statements on
    the order of the values a call is given (the detector), and statements
    that name the operations the code performs, in the order it performs
    them (length, seed and recurrence of the EMA).  Identities of exact
    arithmetic that rounding breaks are not stated of the code; module
    [Binary64] embeds [calculateEMA] on primitive binary64 floats to
    exhibit where they break.  Equalities between computed rationals are
    stated with [==] ([Qeq]) unless the two sides are built by the same
    operations.

    State.  The two private fields of the [VegasTunnel] class are threaded
    explicitly: [analyzeSignal] takes the object before the call and returns
    the result together with the object after the call. *)

From Corelib Require PrimFloat.
From Stdlib Require Import Ascii String.
From Stdlib Require Import ZArith QArith Qabs Qround List Bool Lia Lqa.
Import ListNotations.

Open Scope Q_scope.

(** ** Numbers and their comparison operators *)

Abbreviation number := Q (only parsing).

Module Num.

(** [x < y] *)
Definition ltb (x y : number) : bool :=
  match x ?= y with
  | Lt => true
  | _ => false
  end.

(** [x <= y] *)
Definition leb (x y : number) : bool := Qle_bool x y.

(** [x > y] and [x >= y] are the mirrored comparisons. *)
Definition gtb (x y : number) : bool := ltb y x.
Definition geb (x y : number) : bool := leb y x.

(** [Math.min(x, y)] *)
Definition min (x y : number) : number := if leb x y then x else y.

(** [Math.abs(x)] *)
Definition abs (x : number) : number := Qabs x.

(** An array length or a loop counter read as a number. *)
Definition of_nat (n : nat) : number := inject_Z (Z.of_nat n).

(** Truthiness of a number: every number but zero.  (In binary64 NaN is
    falsy too; the rational model has no NaN.) *)
Definition truthy (x : number) : bool := negb (Qeq_bool x 0).

End Num.

(** ** Records of [types.ts] *)

Record CandleData : Type := mkCandle {
  timestamp : number;
  open : number;
  high : number;
  low : number;
  close : number;
  volume : number
}.

Record TechnicalIndicators : Type := mkIndicators {
  ema12 : number;
  ema144 : number;
  ema169 : number;
  ema576 : number;
  ema676 : number
}.

(** ['long' | 'short' | 'none'] *)
Inductive SignalType : Type := long | short | none.

Record VegasTunnelSignal : Type := mkSignal {
  sig_type : SignalType;
  sig_price : number;
  sig_timestamp : number;
  sig_indicators : TechnicalIndicators
}.

(** ** calculateEMA *)

(** First loop of [calculateEMA]:
    [for (i = 0; i < Math.min(period, prices.length); i++) sum += prices[i]].
    [bound] is the value of [Math.min(period, prices.length)], [ps] the
    prices from index [i] on.  The bound never exceeds [prices.length], so
    the loop stops at the end of the array at the latest. *)
Fixpoint sma_sum (ps : list number) (i : nat) (bound sum : number) : number :=
  match ps with
  | [] => sum
  | p :: ps' =>
      if Num.ltb (Num.of_nat i) bound
      then sma_sum ps' (S i) bound (sum + p)
      else sum
  end.

(** Second loop of [calculateEMA]:
    [ema[i] = prices[i] * multiplier + ema[i - 1] * (1 - multiplier)]
    for [i] from 1 on; [prev] is [ema[i - 1]], [ps] the prices from
    index [i] on. *)
Fixpoint ema_loop (ps : list number) (prev multiplier : number) : list number :=
  match ps with
  | [] => []
  | p :: ps' =>
      let e := (p * multiplier) + (prev * (1 - multiplier)) in
      e :: ema_loop ps' e multiplier
  end.

Definition calculateEMA (prices : list number) (period : number) : list number :=
  match prices with
  | [] => []
  | _ :: rest =>
      if Num.leb period 0 then []
      else
        let multiplier := 2 / (period + 1) in
        let bound := Num.min period (Num.of_nat (length prices)) in
        let sum := sma_sum prices 0 bound 0 in
        let ema0 := sum / bound in
        ema0 :: ema_loop rest ema0 multiplier
  end.

(** ** calculateIndicators *)

(** [a[i]] for an index that is in range wherever this file uses it
    (see [calculateEMA_length]). *)
Definition at_index (a : list number) (i : nat) : number := nth i a 0.

Definition calculateIndicators (candles : list CandleData)
  : option TechnicalIndicators :=
  if (length candles <? 676)%nat then None
  else
    let closes := map close candles in
    let e12 := calculateEMA closes 12 in
    let e144 := calculateEMA closes 144 in
    let e169 := calculateEMA closes 169 in
    let e576 := calculateEMA closes 576 in
    let e676 := calculateEMA closes 676 in
    let lastIndex := (length closes - 1)%nat in
    Some {| ema12 := at_index e12 lastIndex;
            ema144 := at_index e144 lastIndex;
            ema169 := at_index e169 lastIndex;
            ema576 := at_index e576 lastIndex;
            ema676 := at_index e676 lastIndex |}.

(** ** The VegasTunnel class *)

(** [state]: 0 no state, 1 waiting for the signal (armed).
    [longShort]: 0 no direction, 1 bullish order, 2 bearish order. *)
Record VegasTunnel : Type := mkTunnel {
  state : Z;
  longShort : Z
}.

(** [new VegasTunnel()] *)
Definition newVegasTunnel : VegasTunnel := {| state := 0; longShort := 0 |}.

(** The assignment to [this.longShort] at the head of [analyzeSignal]. *)
Definition classify (ind : TechnicalIndicators) : Z :=
  if Num.gtb (ema12 ind) (ema144 ind) && Num.gtb (ema144 ind) (ema169 ind)
     && Num.gtb (ema169 ind) (ema576 ind) && Num.gtb (ema576 ind) (ema676 ind)
  then 1%Z
  else if Num.ltb (ema12 ind) (ema144 ind) && Num.ltb (ema144 ind) (ema169 ind)
          && Num.ltb (ema169 ind) (ema576 ind) && Num.ltb (ema576 ind) (ema676 ind)
  then 2%Z
  else 0%Z.

(** The [if (this.longShort === 0) ... else if ... === 1 ... else if ... === 2]
    block of [analyzeSignal]: from the new [longShort], the old [state], the
    newest candle and the snapshot to [signalType] and the new [state]. *)
Definition decide (ls st : Z) (currentCandle : CandleData)
  (ind : TechnicalIndicators) : SignalType * Z :=
  if (ls =? 0)%Z then (none, 0%Z)
  else if (ls =? 1)%Z then
    if (st =? 0)%Z then
      if Num.leb (low currentCandle) (ema144 ind)
         && Num.geb (close currentCandle) (ema12 ind)
      then (long, 0%Z)
      else if Num.leb (low currentCandle) (ema144 ind) then (none, 1%Z)
      else (none, 0%Z)
    else if (st =? 1)%Z then
      if Num.geb (close currentCandle) (ema12 ind) then (long, 0%Z)
      else if Num.leb (ema12 ind) (ema144 ind) then (none, 0%Z)
      else (none, st)
    else (none, st)
  else if (ls =? 2)%Z then
    if (st =? 0)%Z then
      if Num.geb (high currentCandle) (ema144 ind)
         && Num.leb (close currentCandle) (ema12 ind)
      then (short, 0%Z)
      else if Num.geb (high currentCandle) (ema144 ind) then (none, 1%Z)
      else (none, 0%Z)
    else if (st =? 1)%Z then
      if Num.leb (close currentCandle) (ema12 ind) then (short, 0%Z)
      else if Num.geb (ema12 ind) (ema144 ind) then (none, 0%Z)
      else (none, st)
    else (none, st)
  else (none, st).

(** [candles[candles.length - 1]] *)
Definition lastCandle (candles : list CandleData) : option CandleData :=
  nth_error candles (length candles - 1).

(** [analyzeSignal]: [None] is the [null] result, which leaves the object
    as it was. *)
Definition analyzeSignal (this : VegasTunnel) (candles : list CandleData)
  : option VegasTunnelSignal * VegasTunnel :=
  if (length candles <? 676)%nat then (None, this)
  else
    match calculateIndicators candles with
    | None => (None, this)
    | Some indicators =>
        match lastCandle candles with
        | None => (None, this)
        | Some currentCandle =>
            let ls := classify indicators in
            let '(signalType, st) :=
              decide ls (state this) currentCandle indicators in
            (Some {| sig_type := signalType;
                     sig_price := close currentCandle;
                     sig_timestamp := timestamp currentCandle;
                     sig_indicators := indicators |},
             {| state := st; longShort := ls |})
        end
    end.

(** ** calculateFibonacciTargets *)

(** ['long' | 'short'] *)
Inductive Direction : Type := dir_long | dir_short.

Record Targets : Type := mkTargets {
  target1 : number;
  target2 : number;
  target3 : number
}.

(** Truthiness of an optional number argument: [undefined] and [0] are
    falsy. *)
Definition truthy_opt (x : option number) : bool :=
  match x with
  | None => false
  | Some v => Num.truthy v
  end.

(** [swingHigh && swingLow ? Math.abs(swingHigh - swingLow)
                           : entryPrice * defaultPercent] *)
Definition baseRange (entryPrice : number) (swingHigh swingLow : option number)
  : number :=
  let defaultPercent := 0.05 in
  match swingHigh, swingLow with
  | Some h, Some l =>
      if Num.truthy h && Num.truthy l then Num.abs (h - l)
      else entryPrice * defaultPercent
  | _, _ => entryPrice * defaultPercent
  end.

Definition calculateFibonacciTargets (entryPrice : number)
  (direction : Direction) (swingHigh swingLow : option number) : Targets :=
  match direction with
  | dir_long =>
      let r := baseRange entryPrice swingHigh swingLow in
      {| target1 := entryPrice + (r * 1.0);
         target2 := entryPrice + (r * 1.618);
         target3 := entryPrice + (r * 2.0) |}
  | dir_short =>
      let r := baseRange entryPrice swingHigh swingLow in
      {| target1 := entryPrice - (r * 1.0);
         target2 := entryPrice - (r * 1.618);
         target3 := entryPrice - (r * 2.0) |}
  end.

(** ** analyzeSymbol of [index.ts], from the fetched candles on *)

(** [Math.max(...xs)] and [Math.min(...xs)] of a non-empty array.  [None]
    stands for the infinite value of the empty array, which
    [analyzeSymbol] never builds: it takes the bounds of a series that has
    a signal, hence of at least 676 candles. *)
Definition Math_max (xs : list number) : option number :=
  match xs with
  | [] => None
  | x :: rest => Some (fold_left (fun m y => if Num.ltb m y then y else m) rest x)
  end.

Definition Math_min (xs : list number) : option number :=
  match xs with
  | [] => None
  | x :: rest => Some (fold_left (fun m y => if Num.ltb y m then y else m) rest x)
  end.

(** [a.slice(-n)]: the last [n] elements, all of them when there are
    fewer. *)
Definition slice_last {A : Type} (n : nat) (a : list A) : list A :=
  skipn (length a - n) a.

Record TradingSignal : Type := mkTradingSignal {
  ts_symbol : string;
  ts_direction : Direction;
  ts_timeframe : string;
  ts_leverage : number;
  ts_entryPrice : number;
  ts_targets : Targets;
  ts_timestamp : number
}.

(** The body of [analyzeSymbol] after [fetchKlineData] has returned
    [candles]; [normalizedSymbol] is the symbol the mapping was found for.
    A new detector is built for the call.  [None] is the [null] result. *)
Definition analyzeSymbol (candles : list CandleData)
  (normalizedSymbol timeframe : string) (leverage : number)
  : option TradingSignal :=
  let vegasTunnel := newVegasTunnel in
  let vegasSignal := fst (analyzeSignal vegasTunnel candles) in
  match vegasSignal with
  | None => None
  | Some sig =>
      let build (direction : Direction) :=
        let recentCandles := slice_last 50 candles in
        let highs := map high recentCandles in
        let lows := map low recentCandles in
        let swingHigh := Math_max highs in
        let swingLow := Math_min lows in
        let targets :=
          calculateFibonacciTargets (sig_price sig) direction
            swingHigh swingLow in
        {| ts_symbol := normalizedSymbol;
           ts_direction := direction;
           ts_timeframe := timeframe;
           ts_leverage := leverage;
           ts_entryPrice := sig_price sig;
           ts_targets := targets;
           ts_timestamp := sig_timestamp sig |} in
      match sig_type sig with
      | none => None
      | long => Some (build dir_long)
      | short => Some (build dir_short)
      end
  end.

(** ** normalizeSymbol and SYMBOL_MAPPING of [price-data.ts] *)

(** The upper-case form of an ASCII character: the letters a-z move to
    A-Z, every other character stays.  The embedding of [toUpperCase] is
    exact on strings of ASCII characters. *)
Definition upper_char (c : ascii) : ascii :=
  let n := nat_of_ascii c in
  if ((97 <=? n) && (n <=? 122))%nat then ascii_of_nat (n - 32) else c.

(** [s.toUpperCase()] *)
Fixpoint toUpperCase (s : string) : string :=
  match s with
  | EmptyString => EmptyString
  | String c rest => String (upper_char c) (toUpperCase rest)
  end.

(** [s] without its ending [suffix], when it ends with it. *)
Fixpoint strip_suffix (suffix s : string) : option string :=
  if String.eqb s suffix then Some EmptyString
  else
    match s with
    | EmptyString => None
    | String c rest => option_map (String c) (strip_suffix suffix rest)
    end.

(** [symbol.toUpperCase().replace(/USDT$|USD$/, '')]: the pattern matches
    at the end of the string only, and the ending USDT comes first. *)
Definition normalizeSymbol (symbol : string) : string :=
  let u := toUpperCase symbol in
  match strip_suffix "USDT" u with
  | Some p => p
  | None =>
      match strip_suffix "USD" u with
      | Some p => p
      | None => u
      end
  end.

(** The entries of [SYMBOL_MAPPING]: key, [binance], [coingecko]. *)
Definition SYMBOL_MAPPING : list (string * (string * string)) :=
  [ ("BTC", ("BTCUSDT", "bitcoin"));
    ("ETH", ("ETHUSDT", "ethereum"));
    ("BNB", ("BNBUSDT", "binancecoin"));
    ("SOL", ("SOLUSDT", "solana"));
    ("ADA", ("ADAUSDT", "cardano"));
    ("XRP", ("XRPUSDT", "ripple"));
    ("DOT", ("DOTUSDT", "polkadot"));
    ("DOGE", ("DOGEUSDT", "dogecoin"));
    ("AVAX", ("AVAXUSDT", "avalanche-2"));
    ("LINK", ("LINKUSDT", "chainlink")) ]%string.

(** ** calculateEMA on binary64 *)

Module Binary64.

Import PrimFloat.

(** [a.length] as a number: one is added per element, which is exact for
    every array. *)
Definition length_of (a : list float) : float :=
  fold_left (fun n _ => n + 1)%float a 0%float.

(** [Math.min(x, y)]: NaN when an argument is NaN, and -0 below +0. *)
Definition Math_min (x y : float) : float :=
  if is_nan x || is_nan y then nan
  else if ltb x y then x
  else if ltb y x then y
  else if get_sign x then x else y.

(** The first loop of [calculateEMA]; the counter [i] is a number. *)
Fixpoint sma_sum (ps : list float) (i bound sum : float) : float :=
  match ps with
  | [] => sum
  | p :: ps' =>
      if ltb i bound
      then sma_sum ps' (i + 1)%float bound (sum + p)%float
      else sum
  end.

(** The second loop of [calculateEMA]. *)
Fixpoint ema_loop (ps : list float) (prev multiplier : float) : list float :=
  match ps with
  | [] => []
  | p :: ps' =>
      let e := ((p * multiplier) + (prev * (1 - multiplier)))%float in
      e :: ema_loop ps' e multiplier
  end.

Definition calculateEMA (prices : list float) (period : float) : list float :=
  match prices with
  | [] => []
  | _ :: rest =>
      if leb period 0%float then []
      else
        let multiplier := (2 / (period + 1))%float in
        let bound := Math_min period (length_of prices) in
        let sum := sma_sum prices 0%float bound 0%float in
        let ema0 := (sum / bound)%float in
        ema0 :: ema_loop rest ema0 multiplier
  end.

(** [a[i]], NaN standing for [undefined]. *)
Definition at_index (a : list float) (i : nat) : float := nth i a nan.

(** [x] lies between [a] and [b], in either order. *)
Definition lies_between (a b x : float) : bool :=
  (leb a x && leb x b) || (leb b x && leb x a).

(** Three prices of 0.11 (the binary64 value nearest to it). *)
Definition eleven_cents : list float :=
  [0x1.c28f5c28f5c29p-4; 0x1.c28f5c28f5c29p-4; 0x1.c28f5c28f5c29p-4]%float.

End Binary64.

(** * Vocabulary of the statements *)

(** ema12 > ema144 > ema169 > ema576 > ema676 *)
Definition bullish (ind : TechnicalIndicators) : Prop :=
  ema144 ind < ema12 ind /\ ema169 ind < ema144 ind /\
  ema576 ind < ema169 ind /\ ema676 ind < ema576 ind.

(** ema12 < ema144 < ema169 < ema576 < ema676 *)
Definition bearish (ind : TechnicalIndicators) : Prop :=
  ema12 ind < ema144 ind /\ ema144 ind < ema169 ind /\
  ema169 ind < ema576 ind /\ ema576 ind < ema676 ind.

(** Sum and arithmetic mean of a list of numbers, as the specification
    words them. *)
Definition total (l : list number) : number := fold_right Qplus 0 l.

Definition mean (l : list number) : number := total l / Num.of_nat (length l).

(** The sum of a list taken as the first loop of [calculateEMA] takes it:
    from 0, one price after the other. *)
Definition running_sum (l : list number) : number := fold_left Qplus l 0.

(** [x] lies between [a] and [b], in either order. *)
Definition lies_between (a b x : number) : Prop :=
  (a <= x /\ x <= b) \/ (b <= x /\ x <= a).

Definition strictly_between (a b x : number) : Prop :=
  (a < x /\ x < b) \/ (b < x /\ x < a).

(** The convexity statement at index [i]: ema[i] lies between price[i] and
    ema[i-1], strictly when the two differ. *)
Definition convex_at (prices : list number) (period : number) (i : nat) : Prop :=
  let ema := calculateEMA prices period in
  lies_between (at_index prices i) (at_index ema (i - 1)) (at_index ema i) /\
  (~ at_index prices i == at_index ema (i - 1) ->
   strictly_between (at_index prices i) (at_index ema (i - 1)) (at_index ema i)).

(** The recurrence of [ema_loop] run over [tail] from [start]; the value
    the last call of the loop body leaves. *)
Definition settle (k start : number) (tail : list number) : number :=
  fold_left (fun prev p => p * k + prev * (1 - k)) tail start.

(** The series [candles] is long enough to be evaluated, [ind] is its
    snapshot and [cur] its newest candle. *)
Definition evaluates (candles : list CandleData) (ind : TechnicalIndicators)
  (cur : CandleData) : Prop :=
  (676 <= length candles)%nat /\
  calculateIndicators candles = Some ind /\
  lastCandle candles = Some cur.

(** The signal [analyzeSignal] returns for the newest candle [cur]. *)
Definition signal_of (ty : SignalType) (cur : CandleData)
  (ind : TechnicalIndicators) : VegasTunnelSignal :=
  {| sig_type := ty;
     sig_price := close cur;
     sig_timestamp := timestamp cur;
     sig_indicators := ind |}.

(** A candle that opens, trades and closes at [v]. *)
Definition tick (v : number) : CandleData := mkCandle 0 v v v v 0.

Definition candle (o h l c : number) : CandleData := mkCandle 0 o h l c 0.

(** 676 candles at price 1, then a candle that dips to 1 and closes at 2. *)
Definition rising_series : list CandleData :=
  repeat (tick 1) 676 ++ [] ++ [candle 1 2 1 2].

(** 676 candles at price 1, a spike to 101, then a candle that falls back
    to 2 and closes at 11. *)
Definition pullback_series : list CandleData :=
  repeat (tick 1) 676 ++ [tick 101] ++ [candle 101 101 2 11].

(** The pullback series one candle later: the new candle closes at 21. *)
Definition recovery_series : list CandleData :=
  repeat (tick 1) 676 ++ [tick 101; candle 101 101 2 11] ++ [candle 11 21 11 21].

(** 677 candles at price 5. *)
Definition flat_series : list CandleData :=
  repeat (tick 5) 676 ++ [] ++ [tick 5].

(** 676 candles at price 2, then a candle at price 1. *)
Definition falling_series : list CandleData :=
  repeat (tick 2) 676 ++ [] ++ [tick 1].

(** 676 candles at price 100, a drop to 1, then a candle that climbs back
    to 90. *)
Definition rebound_series : list CandleData :=
  repeat (tick 100) 676 ++ [tick 1] ++ [candle 1 90 1 90].

(** Successive calls of [analyzeSignal] on one detector object, one series
    per call: the results in order and the object after the last call. *)
Fixpoint analyzeAll (this : VegasTunnel) (feeds : list (list CandleData))
  : list (option VegasTunnelSignal) * VegasTunnel :=
  match feeds with
  | [] => ([], this)
  | candles :: rest =>
      let '(r, this') := analyzeSignal this candles in
      let '(rs, final) := analyzeAll this' rest in
      (r :: rs, final)
  end.

(** The values the two fields take: [state] is 0 or 1, [longShort] is 0, 1
    or 2, and an armed detector has an order. *)
Definition well_formed (this : VegasTunnel) : Prop :=
  (state this = 0 \/ state this = 1)%Z /\
  (longShort this = 0 \/ longShort this = 1 \/ longShort this = 2)%Z /\
  (state this = 1%Z -> longShort this <> 0%Z).

(** What a call reports: the direction of the signal, ['none'] when the
    result is [null] (callers treat the two alike). *)
Definition emitted (r : option VegasTunnelSignal * VegasTunnel) : SignalType :=
  match fst r with
  | Some s => sig_type s
  | None => none
  end.

(** The series keeps a bullish detector waiting: bullish order and a close
    below ema12. *)
Definition keeps_waiting_long (candles : list CandleData) : Prop :=
  exists (ind : TechnicalIndicators) (cur : CandleData),
    evaluates candles ind cur /\ bullish ind /\ close cur < ema12 ind.

(** The call reported a signal of direction 'none'. *)
Definition reports_none (r : option VegasTunnelSignal) : Prop :=
  exists s : VegasTunnelSignal, r = Some s /\ sig_type s = none.

(** What [analyzeSymbol] may return for a series whose snapshot is [ind] and
    whose newest candle is [cur]: a 'long' signal under bullish order with
    low <= ema144 and close >= ema12, a 'short' signal under bearish order
    with high >= ema144 and close <= ema12, each with the close and the
    timestamp of [cur], or [null] when neither holds. *)
Definition single_candle_outcome (r : option TradingSignal)
  (ind : TechnicalIndicators) (cur : CandleData)
  (normalizedSymbol timeframe : string) (leverage : number) : Prop :=
  match r with
  | Some ts =>
      ((ts_direction ts = dir_long /\ bullish ind /\
        low cur <= ema144 ind /\ ema12 ind <= close cur) \/
       (ts_direction ts = dir_short /\ bearish ind /\
        ema144 ind <= high cur /\ close cur <= ema12 ind)) /\
      ts_entryPrice ts = close cur /\ ts_timestamp ts = timestamp cur /\
      ts_symbol ts = normalizedSymbol /\ ts_timeframe ts = timeframe /\
      ts_leverage ts = leverage
  | None =>
      ~ (bullish ind /\ low cur <= ema144 ind /\ ema12 ind <= close cur) /\
      ~ (bearish ind /\ ema144 ind <= high cur /\ close cur <= ema12 ind)
  end.

(** Strings are strings of ASCII characters (codes below 128); on these
    [toUpperCase] changes the letters a-z only. *)
Definition ascii_only (s : string) : Prop :=
  forall c, In c (list_ascii_of_string s) -> (nat_of_ascii c < 128)%nat.

(** * Properties *)

(** ** Comparison operators against the order of the rationals *)

Lemma ltb_lt (x y : number) : Num.ltb x y = true <-> x < y.
Proof.
  unfold Num.ltb. rewrite Qlt_alt.
  destruct (x ?= y); split; congruence.
Qed.

Lemma ltb_ge (x y : number) : Num.ltb x y = false <-> y <= x.
Proof.
  split; intro H.
  - apply Qnot_lt_le. intro L. apply ltb_lt in L. congruence.
  - destruct (Num.ltb x y) eqn:E; [|reflexivity].
    apply ltb_lt in E. exfalso. apply (Qlt_not_le _ _ E H).
Qed.

Lemma leb_le (x y : number) : Num.leb x y = true <-> x <= y.
Proof. apply Qle_bool_iff. Qed.

Lemma leb_gt (x y : number) : Num.leb x y = false <-> y < x.
Proof.
  split; intro H.
  - apply Qnot_le_lt. intro L. apply leb_le in L. congruence.
  - destruct (Num.leb x y) eqn:E; [|reflexivity].
    apply leb_le in E. exfalso. apply (Qlt_not_le _ _ H E).
Qed.

Lemma gtb_gt (x y : number) : Num.gtb x y = true <-> y < x.
Proof. apply ltb_lt. Qed.

Lemma geb_ge (x y : number) : Num.geb x y = true <-> y <= x.
Proof. apply leb_le. Qed.

Lemma geb_lt (x y : number) : Num.geb x y = false <-> x < y.
Proof. apply leb_gt. Qed.

(** ** Alignment of a snapshot *)

Lemma and4_true (a b c d : bool) :
  a && b && c && d = true <-> a = true /\ b = true /\ c = true /\ d = true.
Proof. rewrite !andb_true_iff. tauto. Qed.

Lemma classify_bullish (ind : TechnicalIndicators) :
  bullish ind -> classify ind = 1%Z.
Proof.
  intros (H1 & H2 & H3 & H4). unfold classify.
  replace (_ && _ && _ && _) with true; [reflexivity|].
  symmetry. apply and4_true. rewrite !gtb_gt. auto.
Qed.

Lemma bullish_not_bearish (ind : TechnicalIndicators) :
  bullish ind -> ~ bearish ind.
Proof.
  intros (H1 & _) (H2 & _). apply (Qlt_irrefl (ema12 ind)).
  apply Qlt_trans with (ema144 ind); assumption.
Qed.

Lemma classify_bearish (ind : TechnicalIndicators) :
  bearish ind -> classify ind = 2%Z.
Proof.
  intros B. unfold classify.
  destruct (Num.gtb (ema12 ind) (ema144 ind) && _ && _ && _) eqn:E.
  - exfalso. apply and4_true in E. rewrite !gtb_gt in E.
    exact (bullish_not_bearish ind E B).
  - destruct B as (H1 & H2 & H3 & H4).
    replace (_ && _ && _ && _) with true; [reflexivity|].
    symmetry. apply and4_true. rewrite !ltb_lt. auto.
Qed.

Lemma classify_none (ind : TechnicalIndicators) :
  ~ bullish ind -> ~ bearish ind -> classify ind = 0%Z.
Proof.
  intros NB NS. unfold classify.
  destruct (Num.gtb (ema12 ind) (ema144 ind) && _ && _ && _) eqn:E.
  - exfalso. apply NB. apply and4_true in E. rewrite !gtb_gt in E. exact E.
  - destruct (Num.ltb (ema12 ind) (ema144 ind) && _ && _ && _) eqn:F;
      [|reflexivity].
    exfalso. apply NS. apply and4_true in F. rewrite !ltb_lt in F. exact F.
Qed.

(** ** Unfolding [analyzeSignal] once the snapshot and the newest candle
    are known *)

Lemma calculateIndicators_short (candles : list CandleData) :
  (length candles < 676)%nat -> calculateIndicators candles = None.
Proof.
  intro H. unfold calculateIndicators.
  apply Nat.ltb_lt in H. rewrite H. reflexivity.
Qed.

Lemma calculateIndicators_enough (candles : list CandleData) :
  (676 <= length candles)%nat ->
  calculateIndicators candles =
  let closes := map close candles in
  let lastIndex := (length candles - 1)%nat in
  Some {| ema12 := at_index (calculateEMA closes 12) lastIndex;
          ema144 := at_index (calculateEMA closes 144) lastIndex;
          ema169 := at_index (calculateEMA closes 169) lastIndex;
          ema576 := at_index (calculateEMA closes 576) lastIndex;
          ema676 := at_index (calculateEMA closes 676) lastIndex |}.
Proof.
  intro H. unfold calculateIndicators.
  apply Nat.ltb_ge in H. rewrite H. cbv zeta.
  rewrite length_map. reflexivity.
Qed.

Lemma lastCandle_enough (candles : list CandleData) :
  (676 <= length candles)%nat -> exists cur, lastCandle candles = Some cur.
Proof.
  intro H. unfold lastCandle.
  destruct (nth_error candles (length candles - 1)) eqn:E.
  - eauto.
  - apply nth_error_None in E. lia.
Qed.

Lemma analyzeSignal_step (this : VegasTunnel) (candles : list CandleData)
  (ind : TechnicalIndicators) (cur : CandleData) :
  (676 <= length candles)%nat ->
  calculateIndicators candles = Some ind ->
  lastCandle candles = Some cur ->
  analyzeSignal this candles =
  (Some {| sig_type := fst (decide (classify ind) (state this) cur ind);
           sig_price := close cur;
           sig_timestamp := timestamp cur;
           sig_indicators := ind |},
   {| state := snd (decide (classify ind) (state this) cur ind);
      longShort := classify ind |}).
Proof.
  intros L HI HC. unfold analyzeSignal.
  apply Nat.ltb_ge in L. rewrite L, HI, HC.
  destruct (decide _ _ _ _); reflexivity.
Qed.

(** ** calculateEMA: length, seed and recurrence *)

Lemma of_nat_lt (i m : nat) : Num.ltb (Num.of_nat i) (Num.of_nat m) = (i <? m)%nat.
Proof.
  unfold Num.of_nat. destruct (i <? m)%nat eqn:E.
  - apply ltb_lt. rewrite <- Zlt_Qlt. apply Nat.ltb_lt in E. lia.
  - apply ltb_ge. rewrite <- Zle_Qle. apply Nat.ltb_ge in E. lia.
Qed.

Lemma sma_sum_firstn (ps : list number) :
  forall (i m : nat) (sum : number),
    sma_sum ps i (Num.of_nat m) sum == sum + total (firstn (m - i) ps).
Proof.
  induction ps as [|p ps IH]; intros i m sum; cbn [sma_sum].
  - rewrite firstn_nil. unfold total. cbn. ring.
  - rewrite of_nat_lt. destruct (i <? m)%nat eqn:E.
    + apply Nat.ltb_lt in E. rewrite IH.
      replace (m - i)%nat with (S (m - S i)) by lia.
      cbn [firstn]. unfold total. cbn [fold_right]. ring.
    + apply Nat.ltb_ge in E. replace (m - i)%nat with 0%nat by lia.
      unfold total. cbn. ring.
Qed.

(** [Math.min(period, prices.length)] for a positive integer period. *)
Lemma min_of_nat (P : Z) (n : nat) :
  (0 < P)%Z ->
  Num.min (inject_Z P) (Num.of_nat n) = Num.of_nat (Nat.min (Z.to_nat P) n).
Proof.
  intro HP. unfold Num.min, Num.of_nat.
  destruct (Num.leb (inject_Z P) (inject_Z (Z.of_nat n))) eqn:E.
  - apply leb_le in E. rewrite <- Zle_Qle in E.
    f_equal. lia.
  - apply leb_gt in E. rewrite <- Zlt_Qlt in E.
    f_equal. lia.
Qed.

Lemma period_positive (P : Z) :
  (0 < P)%Z -> Num.leb (inject_Z P) 0 = false.
Proof.
  intro HP. apply leb_gt. change 0 with (inject_Z 0).
  rewrite <- Zlt_Qlt. exact HP.
Qed.

Lemma ema_loop_length (ps : list number) :
  forall prev k, length (ema_loop ps prev k) = length ps.
Proof.
  induction ps as [|p ps IH]; intros prev k; cbn; [reflexivity|].
  rewrite IH. reflexivity.
Qed.

Lemma calculateEMA_length (prices : list number) (period : number) :
  0 < period -> length (calculateEMA prices period) = length prices.
Proof.
  intro HP. unfold calculateEMA. destruct prices as [|p rest]; [reflexivity|].
  apply leb_gt in HP. rewrite HP. cbn. rewrite ema_loop_length. reflexivity.
Qed.

Lemma ema_loop_step (ps : list number) :
  forall (prev k : number) (j : nat),
    (j < length ps)%nat ->
    nth (S j) (prev :: ema_loop ps prev k) 0 =
    nth j ps 0 * k + nth j (prev :: ema_loop ps prev k) 0 * (1 - k).
Proof.
  induction ps as [|p ps IH]; intros prev k j Hj; cbn [length] in Hj; [lia|].
  destruct j as [|j].
  - reflexivity.
  - cbn [ema_loop]. change (nth (S (S j)) (prev :: ?l) 0) with (nth (S j) l 0).
    change (nth (S j) (p :: ps) 0) with (nth j ps 0).
    change (nth (S j) (prev :: ?x :: ?l) 0) with (nth j (x :: l) 0).
    apply IH. lia.
Qed.

Lemma calculateEMA_seed (prices : list number) (P : Z) :
  prices <> [] -> (0 < P)%Z ->
  at_index (calculateEMA prices (inject_Z P)) 0 ==
  mean (firstn (Nat.min (Z.to_nat P) (length prices)) prices).
Proof.
  intros HN HP. unfold calculateEMA.
  destruct prices as [|p rest]; [congruence|].
  rewrite period_positive by exact HP. cbv zeta.
  rewrite min_of_nat by exact HP.
  set (m := Nat.min (Z.to_nat P) (length (p :: rest))).
  unfold at_index. cbn [nth].
  rewrite sma_sum_firstn. unfold mean.
  rewrite length_firstn. fold m.
  replace (Nat.min m (length (p :: rest))) with m by (unfold m; lia).
  rewrite Nat.sub_0_r. rewrite Qplus_0_l. reflexivity.
Qed.

Lemma calculateEMA_step (prices : list number) (period : number) (i : nat) :
  0 < period -> (1 <= i < length prices)%nat ->
  at_index (calculateEMA prices period) i =
  at_index prices i * (2 / (period + 1)) +
  at_index (calculateEMA prices period) (i - 1) * (1 - 2 / (period + 1)).
Proof.
  intros HP [H1 H2]. unfold calculateEMA.
  destruct prices as [|p rest]; [cbn in H2; lia|].
  apply leb_gt in HP. rewrite HP. cbv zeta.
  destruct i as [|j]; [lia|]. cbn [length] in H2.
  replace (S j - 1)%nat with j by lia.
  unfold at_index. rewrite ema_loop_step by lia. reflexivity.
Qed.

(** ** Claims on calculateEMA *)

(** C8.  A period P <= 0 or an empty price sequence yields the empty
    sequence.  [calculateEMA] is a total function: there is no input on
    which it fails. *)
Theorem calculateEMA_degenerate (prices : list number) (period : number) :
  period <= 0 \/ prices = [] -> calculateEMA prices period = [].
Proof.
  intros [H|H].
  - unfold calculateEMA. destruct prices; [reflexivity|].
    apply leb_le in H. rewrite H. reflexivity.
  - subst prices. reflexivity.
Qed.

Lemma calculateEMA_degenerate_witness :
  calculateEMA [1; 2; 3] (-2) = [] /\ calculateEMA [] 12 = [].
Proof.
  split.
  - apply (calculateEMA_degenerate [1; 2; 3] (-2)). left. vm_compute. discriminate.
  - apply (calculateEMA_degenerate [] 12). right. reflexivity.
Defined.

(** ** The last EMA value of a series that starts flat *)

Lemma ema_loop_last (ps : list number) :
  forall prev k,
    ps <> [] ->
    nth (length ps - 1) (ema_loop ps prev k) 0 = settle k prev ps.
Proof.
  induction ps as [|p ps IH]; intros prev k HN; [congruence|].
  destruct ps as [|q r].
  - reflexivity.
  - replace (length (p :: q :: r) - 1)%nat with (S (length (q :: r) - 1))
      by (cbn [length]; lia).
    change (ema_loop (p :: q :: r) prev k)
      with (p * k + prev * (1 - k)
            :: ema_loop (q :: r) (p * k + prev * (1 - k)) k).
    change (settle k prev (p :: q :: r))
      with (settle k (p * k + prev * (1 - k)) (q :: r)).
    cbn [nth]. apply IH. discriminate.
Qed.

Lemma settle_compat (k : number) (ps : list number) :
  forall a b, a == b -> settle k a ps == settle k b ps.
Proof.
  induction ps as [|p ps IH]; intros a b E; cbn; [exact E|].
  apply IH. rewrite E. reflexivity.
Qed.

Lemma settle_repeat (k v : number) (n : nat) :
  forall a, a == v -> settle k a (repeat v n) == v.
Proof.
  induction n as [|n IH]; intros a E; cbn; [exact E|].
  apply IH. rewrite E. ring.
Qed.

Lemma total_repeat (v : number) (m : nat) :
  total (repeat v m) == Num.of_nat m * v.
Proof.
  induction m as [|m IH].
  - unfold total, Num.of_nat. cbn. ring.
  - cbn [repeat]. unfold total in *. cbn [fold_right]. rewrite IH.
    unfold Num.of_nat. rewrite Nat2Z.inj_succ, <- Z.add_1_r, inject_Z_plus.
    ring.
Qed.

Lemma mean_repeat (v : number) (m : nat) :
  (1 <= m)%nat -> mean (repeat v m) == v.
Proof.
  intro Hm. unfold mean. rewrite total_repeat, repeat_length.
  assert (H : ~ Num.of_nat m == 0).
  { unfold Num.of_nat. intro E. change 0 with (inject_Z 0) in E.
    rewrite inject_Z_injective in E. lia. }
  field. exact H.
Qed.

Lemma firstn_repeat_app (v : number) (m n : nat) (tail : list number) :
  (m <= n)%nat -> firstn m (repeat v n ++ tail) = repeat v m.
Proof.
  intro H. rewrite firstn_app, repeat_length.
  replace (m - n)%nat with 0%nat by lia. cbn [firstn]. rewrite app_nil_r.
  replace n with (m + (n - m))%nat by lia.
  rewrite repeat_app, firstn_app, repeat_length, Nat.sub_diag.
  cbn [firstn]. rewrite app_nil_r.
  apply firstn_all2. rewrite repeat_length. lia.
Qed.

Lemma calculateEMA_last (prices : list number) (period : number) :
  0 < period ->
  at_index (calculateEMA prices period) (length prices - 1) =
  settle (2 / (period + 1)) (at_index (calculateEMA prices period) 0)
    (tl prices).
Proof.
  intro HP. unfold calculateEMA. destruct prices as [|p rest]; [reflexivity|].
  apply leb_gt in HP. rewrite HP. cbv zeta. unfold at_index.
  cbn [length tl]. rewrite Nat.sub_succ, Nat.sub_0_r.
  destruct rest as [|q r]; [reflexivity|].
  replace (length (q :: r)) with (S (length (q :: r) - 1)) at 1
    by (cbn [length]; lia).
  cbn [nth]. rewrite ema_loop_last by discriminate. reflexivity.
Qed.

(** After at least P equal prices [v], the last EMA value depends on the
    prices that follow only. *)
Lemma calculateEMA_flat_then (v : number) (n : nat) (tail : list number) (P : Z) :
  (1 <= P)%Z -> (Z.to_nat P <= n)%nat ->
  at_index (calculateEMA (repeat v n ++ tail) (inject_Z P))
    (length (repeat v n ++ tail) - 1) ==
  settle (2 / (inject_Z P + 1)) v tail.
Proof.
  intros HP Hn.
  assert (HQ : 0 < inject_Z P).
  { change 0 with (inject_Z 0). rewrite <- Zlt_Qlt. lia. }
  assert (HN : repeat v n ++ tail <> []).
  { destruct n; [lia|discriminate]. }
  rewrite calculateEMA_last by exact HQ.
  assert (S0 : at_index (calculateEMA (repeat v n ++ tail) (inject_Z P)) 0 == v).
  { rewrite calculateEMA_seed by (try exact HN; lia).
    rewrite length_app, repeat_length.
    replace (Nat.min (Z.to_nat P) (n + length tail)) with (Z.to_nat P) by lia.
    rewrite firstn_repeat_app by exact Hn.
    apply mean_repeat. lia. }
  destruct n as [|n]; [lia|].
  cbn [repeat app tl]. unfold settle at 1. rewrite fold_left_app.
  fold (settle (2 / (inject_Z P + 1))
          (at_index (calculateEMA (v :: repeat v n ++ tail) (inject_Z P)) 0)
          (repeat v n)).
  apply settle_compat. apply settle_repeat. exact S0.
Qed.

(** ** The detector *)

Lemma evaluates_exists (candles : list CandleData) :
  (676 <= length candles)%nat -> exists ind cur, evaluates candles ind cur.
Proof.
  intro H. destruct (lastCandle_enough candles H) as [cur HC].
  eexists; exists cur. split; [exact H|]. split; [|exact HC].
  apply calculateIndicators_enough. exact H.
Qed.

Lemma analyzeSignal_evaluates (this : VegasTunnel) (candles : list CandleData)
  (ind : TechnicalIndicators) (cur : CandleData) :
  evaluates candles ind cur ->
  analyzeSignal this candles =
  (Some {| sig_type := fst (decide (classify ind) (state this) cur ind);
           sig_price := close cur;
           sig_timestamp := timestamp cur;
           sig_indicators := ind |},
   {| state := snd (decide (classify ind) (state this) cur ind);
      longShort := classify ind |}).
Proof. intros (L & HI & HC). apply analyzeSignal_step; assumption. Qed.

Ltac by_order :=
  repeat match goal with
         | H : _ <= _ |- _ => apply leb_le in H
         | H : _ < _ |- _ => apply leb_gt in H
         end;
  unfold decide, Num.geb; cbn [Z.eqb Pos.eqb];
  repeat match goal with
         | H : Num.leb _ _ = _ |- _ => rewrite H
         end;
  cbn [andb fst snd]; try reflexivity.

(** C1.  Bullish order, detector unarmed (in particular in its initial
    state {none, false}), newest candle with low <= ema144 and
    close >= ema12: one call emits 'long' and leaves {bullish, unarmed}. *)
Theorem single_candle_long (this : VegasTunnel) (candles : list CandleData)
  (ind : TechnicalIndicators) (cur : CandleData) :
  evaluates candles ind cur ->
  bullish ind ->
  state this = 0%Z ->
  low cur <= ema144 ind ->
  ema12 ind <= close cur ->
  analyzeSignal this candles =
  (Some (signal_of long cur ind), {| state := 0; longShort := 1 |}).
Proof.
  intros HE HB HS HL HC.
  rewrite (analyzeSignal_evaluates this candles ind cur HE).
  rewrite (classify_bullish ind HB), HS. unfold signal_of.
  by_order.
Qed.

(** C3.  Whatever the detector state, a series whose snapshot is neither
    in bullish nor in bearish order emits 'none' and resets the detector to
    {none, unarmed}. *)
Theorem no_alignment_resets (this : VegasTunnel) (candles : list CandleData)
  (ind : TechnicalIndicators) (cur : CandleData) :
  evaluates candles ind cur ->
  ~ bullish ind -> ~ bearish ind ->
  analyzeSignal this candles =
  (Some (signal_of none cur ind), {| state := 0; longShort := 0 |}).
Proof.
  intros HE NB NS.
  rewrite (analyzeSignal_evaluates this candles ind cur HE).
  rewrite (classify_none ind NB NS). reflexivity.
Qed.

(** C5.  A series of fewer than 676 candles has no snapshot, whatever the
    candles hold, and [analyzeSignal] returns no signal (and leaves the
    detector as it was). *)
Theorem insufficient_data (candles : list CandleData) :
  (length candles < 676)%nat ->
  calculateIndicators candles = None /\
  forall this : VegasTunnel, analyzeSignal this candles = (None, this).
Proof.
  intro H. split.
  - apply calculateIndicators_short. exact H.
  - intro this. unfold analyzeSignal.
    apply Nat.ltb_lt in H. rewrite H. reflexivity.
Qed.

(** C2.  Two consecutive calls under bullish order.  The first, from an
    unarmed detector, with low <= ema144 and close < ema12, emits 'none'
    and arms: {bullish, armed}.  The second, with close >= ema12, emits
    'long' and disarms: {bullish, unarmed}. *)
Theorem arm_then_confirm_long (this : VegasTunnel)
  (candles1 candles2 : list CandleData) (ind1 ind2 : TechnicalIndicators)
  (cur1 cur2 : CandleData) :
  state this = 0%Z ->
  evaluates candles1 ind1 cur1 -> bullish ind1 ->
  low cur1 <= ema144 ind1 -> close cur1 < ema12 ind1 ->
  evaluates candles2 ind2 cur2 -> bullish ind2 ->
  ema12 ind2 <= close cur2 ->
  let first := analyzeSignal this candles1 in
  let second := analyzeSignal (snd first) candles2 in
  first = (Some (signal_of none cur1 ind1), {| state := 1; longShort := 1 |}) /\
  second = (Some (signal_of long cur2 ind2), {| state := 0; longShort := 1 |}).
Proof.
  intros HS HE1 HB1 HL1 HC1 HE2 HB2 HC2 first second.
  assert (F : first =
    (Some (signal_of none cur1 ind1), {| state := 1; longShort := 1 |})).
  { unfold first.
    rewrite (analyzeSignal_evaluates this candles1 ind1 cur1 HE1).
    rewrite (classify_bullish ind1 HB1), HS. unfold signal_of.
    clear HC2. by_order. }
  split; [exact F|].
  unfold second. rewrite F. cbn [snd].
  rewrite (analyzeSignal_evaluates _ candles2 ind2 cur2 HE2).
  rewrite (classify_bullish ind2 HB2). cbn [state]. unfold signal_of.
  clear HL1 HC1. by_order.
Qed.

(** C9.  The armed flag survives a direct flip of the order.  A first call
    under bullish order arms the detector (low <= ema144, close < ema12);
    a second call under bearish order with close <= ema12 then emits
    'short' at once, whatever the high of its candle: no touch of ema144
    from below is asked for. *)
Theorem armed_flag_crosses_flip (this : VegasTunnel)
  (candles1 candles2 : list CandleData) (ind1 ind2 : TechnicalIndicators)
  (cur1 cur2 : CandleData) :
  state this = 0%Z ->
  evaluates candles1 ind1 cur1 -> bullish ind1 ->
  low cur1 <= ema144 ind1 -> close cur1 < ema12 ind1 ->
  evaluates candles2 ind2 cur2 -> bearish ind2 ->
  close cur2 <= ema12 ind2 ->
  let first := analyzeSignal this candles1 in
  let second := analyzeSignal (snd first) candles2 in
  first = (Some (signal_of none cur1 ind1), {| state := 1; longShort := 1 |}) /\
  second = (Some (signal_of short cur2 ind2), {| state := 0; longShort := 2 |}).
Proof.
  intros HS HE1 HB1 HL1 HC1 HE2 HB2 HC2 first second.
  assert (F : first =
    (Some (signal_of none cur1 ind1), {| state := 1; longShort := 1 |})).
  { unfold first.
    rewrite (analyzeSignal_evaluates this candles1 ind1 cur1 HE1).
    rewrite (classify_bullish ind1 HB1), HS. unfold signal_of.
    clear HC2. by_order. }
  split; [exact F|].
  unfold second. rewrite F. cbn [snd].
  rewrite (analyzeSignal_evaluates _ candles2 ind2 cur2 HE2).
  rewrite (classify_bearish ind2 HB2). cbn [state]. unfold signal_of.
  clear HL1 HC1. by_order.
Qed.

(** C10.  From an armed detector: under bullish order the test
    ema12 <= ema144 of the armed branch is false, so a candle with
    close < ema12 emits 'none' and leaves the detector armed; under bearish
    order the test ema12 >= ema144 is false, so a candle with
    close > ema12 emits 'none' and leaves the detector armed. *)
Theorem armed_invalidation_never_fires (this : VegasTunnel)
  (candles : list CandleData) (ind : TechnicalIndicators) (cur : CandleData) :
  evaluates candles ind cur ->
  state this = 1%Z ->
  (bullish ind ->
   Num.leb (ema12 ind) (ema144 ind) = false /\
   (close cur < ema12 ind ->
    analyzeSignal this candles =
    (Some (signal_of none cur ind), {| state := 1; longShort := 1 |}))) /\
  (bearish ind ->
   Num.geb (ema12 ind) (ema144 ind) = false /\
   (ema12 ind < close cur ->
    analyzeSignal this candles =
    (Some (signal_of none cur ind), {| state := 1; longShort := 2 |}))).
Proof.
  intros HE HS. split.
  - intros HB. pose proof HB as (H1 & _). split; [apply leb_gt; exact H1|].
    intro HC.
    rewrite (analyzeSignal_evaluates this candles ind cur HE).
    rewrite (classify_bullish ind HB), HS. unfold signal_of.
    by_order.
  - intros HB. pose proof HB as (H1 & _). split; [apply leb_gt; exact H1|].
    intro HC.
    rewrite (analyzeSignal_evaluates this candles ind cur HE).
    rewrite (classify_bearish ind HB), HS. unfold signal_of.
    by_order.
Qed.

(** ** Sample series *)

Lemma lastCandle_snoc (l : list CandleData) (c : CandleData) :
  lastCandle (l ++ [c]) = Some c.
Proof.
  unfold lastCandle. rewrite length_app. cbn [length].
  replace (length l + 1 - 1)%nat with (length l) by lia.
  rewrite nth_error_app2 by lia. rewrite Nat.sub_diag. reflexivity.
Qed.

(** Snapshot of a series that starts with [n >= 676] candles at price
    [v]: each EMA is the recurrence run from [v] over the closes that
    follow. *)
Lemma flat_then_evaluates (v : number) (n : nat) (init : list CandleData)
  (c : CandleData) :
  (676 <= n)%nat ->
  exists ind : TechnicalIndicators,
    evaluates (repeat (tick v) n ++ init ++ [c]) ind c /\
    ema12 ind == settle (2 / (12 + 1)) v (map close (init ++ [c])) /\
    ema144 ind == settle (2 / (144 + 1)) v (map close (init ++ [c])) /\
    ema169 ind == settle (2 / (169 + 1)) v (map close (init ++ [c])) /\
    ema576 ind == settle (2 / (576 + 1)) v (map close (init ++ [c])) /\
    ema676 ind == settle (2 / (676 + 1)) v (map close (init ++ [c])).
Proof.
  intro Hn.
  set (candles := repeat (tick v) n ++ init ++ [c]).
  assert (L : (676 <= length candles)%nat).
  { unfold candles. rewrite length_app, repeat_length. lia. }
  eexists. split; [split; [exact L|split]|].
  - apply calculateIndicators_enough. exact L.
  - unfold candles. rewrite app_assoc. apply lastCandle_snoc.
  - cbv zeta. cbn [ema12 ema144 ema169 ema576 ema676].
    assert (C : map close candles = repeat v n ++ map close (init ++ [c])).
    { unfold candles. rewrite map_app, map_repeat. reflexivity. }
    rewrite <- (length_map close candles). rewrite C.
    repeat split.
    + apply (calculateEMA_flat_then v n _ 12); lia.
    + apply (calculateEMA_flat_then v n _ 144); lia.
    + apply (calculateEMA_flat_then v n _ 169); lia.
    + apply (calculateEMA_flat_then v n _ 576); lia.
    + apply (calculateEMA_flat_then v n _ 676); lia.
Qed.

Ltac by_snapshot E12 E144 E169 E576 E676 :=
  unfold bullish, bearish;
  rewrite ?E12, ?E144, ?E169, ?E576, ?E676;
  vm_compute; intuition discriminate.

Lemma single_candle_long_witness :
  exists sig : VegasTunnelSignal,
    analyzeSignal newVegasTunnel rising_series =
    (Some sig, {| state := 0; longShort := 1 |}) /\ sig_type sig = long.
Proof.
  destruct (flat_then_evaluates 1 676 [] (candle 1 2 1 2) (le_n _))
    as (ind & HE & E12 & E144 & E169 & E576 & E676).
  exists (signal_of long (candle 1 2 1 2) ind). split; [|reflexivity].
  apply (single_candle_long newVegasTunnel rising_series ind (candle 1 2 1 2)).
  - exact HE.
  - by_snapshot E12 E144 E169 E576 E676.
  - reflexivity.
  - cbn [low candle]. by_snapshot E12 E144 E169 E576 E676.
  - cbn [close candle]. by_snapshot E12 E144 E169 E576 E676.
Defined.

Lemma no_alignment_resets_witness :
  exists sig : VegasTunnelSignal,
    analyzeSignal {| state := 1; longShort := 1 |} flat_series =
    (Some sig, {| state := 0; longShort := 0 |}) /\ sig_type sig = none.
Proof.
  destruct (flat_then_evaluates 5 676 [] (tick 5) (le_n _))
    as (ind & HE & E12 & E144 & E169 & E576 & E676).
  exists (signal_of none (tick 5) ind). split; [|reflexivity].
  apply (no_alignment_resets {| state := 1; longShort := 1 |} flat_series
           ind (tick 5)).
  - exact HE.
  - by_snapshot E12 E144 E169 E576 E676.
  - by_snapshot E12 E144 E169 E576 E676.
Defined.

Lemma insufficient_data_witness :
  calculateIndicators (repeat (tick 7) 675) = None /\
  forall this : VegasTunnel,
    analyzeSignal this (repeat (tick 7) 675) = (None, this).
Proof.
  apply (insufficient_data (repeat (tick 7) 675)).
  rewrite repeat_length. lia.
Defined.

Lemma arm_then_confirm_long_witness :
  exists s1 s2 : VegasTunnelSignal,
    analyzeSignal newVegasTunnel pullback_series =
    (Some s1, {| state := 1; longShort := 1 |}) /\
    analyzeSignal {| state := 1; longShort := 1 |} recovery_series =
    (Some s2, {| state := 0; longShort := 1 |}) /\
    sig_type s1 = none /\ sig_type s2 = long.
Proof.
  destruct (flat_then_evaluates 1 676 [tick 101] (candle 101 101 2 11) (le_n _))
    as (ind1 & HE1 & A12 & A144 & A169 & A576 & A676).
  destruct (flat_then_evaluates 1 676 [tick 101; candle 101 101 2 11]
              (candle 11 21 11 21) (le_n _))
    as (ind2 & HE2 & B12 & B144 & B169 & B576 & B676).
  exists (signal_of none (candle 101 101 2 11) ind1),
         (signal_of long (candle 11 21 11 21) ind2).
  assert (H := arm_then_confirm_long newVegasTunnel
                 pullback_series recovery_series ind1 ind2
                 (candle 101 101 2 11) (candle 11 21 11 21)).
  cbv zeta in H. destruct H as [F S].
  - reflexivity.
  - exact HE1.
  - by_snapshot A12 A144 A169 A576 A676.
  - cbn [low candle]. by_snapshot A12 A144 A169 A576 A676.
  - cbn [close candle]. by_snapshot A12 A144 A169 A576 A676.
  - exact HE2.
  - by_snapshot B12 B144 B169 B576 B676.
  - cbn [close candle]. by_snapshot B12 B144 B169 B576 B676.
  - rewrite F in S. cbn [snd] in S.
    split; [exact F|]. split; [exact S|]. split; reflexivity.
Defined.

Lemma armed_flag_crosses_flip_witness :
  exists s1 s2 : VegasTunnelSignal,
    analyzeSignal newVegasTunnel pullback_series =
    (Some s1, {| state := 1; longShort := 1 |}) /\
    analyzeSignal {| state := 1; longShort := 1 |} falling_series =
    (Some s2, {| state := 0; longShort := 2 |}) /\
    sig_type s1 = none /\ sig_type s2 = short /\
    high (tick 1) < ema144 (sig_indicators s2).
Proof.
  destruct (flat_then_evaluates 1 676 [tick 101] (candle 101 101 2 11) (le_n _))
    as (ind1 & HE1 & A12 & A144 & A169 & A576 & A676).
  destruct (flat_then_evaluates 2 676 [] (tick 1) (le_n _))
    as (ind2 & HE2 & B12 & B144 & B169 & B576 & B676).
  exists (signal_of none (candle 101 101 2 11) ind1),
         (signal_of short (tick 1) ind2).
  assert (H := armed_flag_crosses_flip newVegasTunnel
                 pullback_series falling_series ind1 ind2
                 (candle 101 101 2 11) (tick 1)).
  cbv zeta in H. destruct H as [F S].
  - reflexivity.
  - exact HE1.
  - by_snapshot A12 A144 A169 A576 A676.
  - cbn [low candle]. by_snapshot A12 A144 A169 A576 A676.
  - cbn [close candle]. by_snapshot A12 A144 A169 A576 A676.
  - exact HE2.
  - by_snapshot B12 B144 B169 B576 B676.
  - cbn [close tick]. by_snapshot B12 B144 B169 B576 B676.
  - rewrite F in S. cbn [snd] in S.
    split; [exact F|]. split; [exact S|].
    split; [reflexivity|]. split; [reflexivity|].
    unfold signal_of. cbn [sig_indicators high tick].
    by_snapshot B12 B144 B169 B576 B676.
Defined.

Lemma armed_invalidation_never_fires_witness :
  (exists sig : VegasTunnelSignal,
     analyzeSignal {| state := 1; longShort := 1 |} pullback_series =
     (Some sig, {| state := 1; longShort := 1 |}) /\ sig_type sig = none) /\
  (exists sig : VegasTunnelSignal,
     analyzeSignal {| state := 1; longShort := 2 |} rebound_series =
     (Some sig, {| state := 1; longShort := 2 |}) /\ sig_type sig = none).
Proof.
  destruct (flat_then_evaluates 1 676 [tick 101] (candle 101 101 2 11) (le_n _))
    as (ind1 & HE1 & A12 & A144 & A169 & A576 & A676).
  destruct (flat_then_evaluates 100 676 [tick 1] (candle 1 90 1 90) (le_n _))
    as (ind2 & HE2 & B12 & B144 & B169 & B576 & B676).
  split.
  - exists (signal_of none (candle 101 101 2 11) ind1). split; [|reflexivity].
    apply (armed_invalidation_never_fires {| state := 1; longShort := 1 |}
             pullback_series ind1 (candle 101 101 2 11) HE1 eq_refl).
    + by_snapshot A12 A144 A169 A576 A676.
    + cbn [close candle]. by_snapshot A12 A144 A169 A576 A676.
  - exists (signal_of none (candle 1 90 1 90) ind2). split; [|reflexivity].
    apply (armed_invalidation_never_fires {| state := 1; longShort := 2 |}
             rebound_series ind2 (candle 1 90 1 90) HE2 eq_refl).
    + by_snapshot B12 B144 B169 B576 B676.
    + cbn [close candle]. by_snapshot B12 B144 B169 B576 B676.
Defined.

(** ** calculateFibonacciTargets *)

(** C6 on the code.  Entry 100, direction 'long', swing high 10 and swing
    low 0, both supplied: the range is not |10 - 0| = 10 but
    100 * 0.05 = 5, because the test [swingHigh && swingLow] takes the
    supplied 0 for a missing bound.  The targets are 105, 108.09 and 110
    where the range |swingHigh - swingLow| gives 110, 116.18 and 120. *)
Theorem fibonacci_zero_swing_low :
  let t := calculateFibonacciTargets 100 dir_long (Some 10) (Some 0) in
  baseRange 100 (Some 10) (Some 0) == 100 * 0.05 /\
  ~ baseRange 100 (Some 10) (Some 0) == Num.abs (10 - 0) /\
  target1 t == 105 /\ target2 t == 108.09 /\ target3 t == 110 /\
  ~ target1 t == 100 + Num.abs (10 - 0) * 1.0.
Proof.
  vm_compute. repeat split; discriminate.
Qed.


(** ** calculateEMA: appending newer prices *)

Lemma sma_sum_app (ps more : list number) (m : nat) :
  forall (i : nat) (sum : number),
    (m <= i + length ps)%nat ->
    sma_sum (ps ++ more) i (Num.of_nat m) sum = sma_sum ps i (Num.of_nat m) sum.
Proof.
  induction ps as [|p ps IH]; intros i sum H; cbn [app sma_sum].
  - destruct more as [|q more]; [reflexivity|]. cbn [sma_sum].
    rewrite of_nat_lt. cbn [length] in H.
    replace (i <? m)%nat with false; [reflexivity|].
    symmetry. apply Nat.ltb_ge. lia.
  - destruct (Num.ltb (Num.of_nat i) (Num.of_nat m)); [|reflexivity].
    apply IH. cbn [length] in H. lia.
Qed.

Lemma ema_loop_app (a b : list number) (k : number) :
  forall prev,
    firstn (length a) (ema_loop (a ++ b) prev k) = ema_loop a prev k.
Proof.
  induction a as [|p a IH]; intro prev; [reflexivity|].
  cbn [app ema_loop length firstn]. rewrite IH. reflexivity.
Qed.

(** X3.  Once a series has at least P prices, prices appended to it leave the
    EMA values already computed as they are: the values for the longer
    series start with the values for the shorter one. *)
Theorem calculateEMA_append (prices more : list number) (P : Z) :
  (1 <= P)%Z -> (Z.to_nat P <= length prices)%nat ->
  firstn (length prices) (calculateEMA (prices ++ more) (inject_Z P)) =
  calculateEMA prices (inject_Z P).
Proof.
  intros HP HN.
  destruct prices as [|p rest]; [cbn [length] in HN; lia|].
  unfold calculateEMA. cbn [app]. rewrite period_positive by lia. cbv zeta.
  rewrite !min_of_nat by lia.
  change (p :: rest ++ more) with ((p :: rest) ++ more).
  rewrite length_app.
  replace (Nat.min (Z.to_nat P) (length (p :: rest) + length more))
    with (Z.to_nat P) by lia.
  replace (Nat.min (Z.to_nat P) (length (p :: rest)))
    with (Z.to_nat P) by lia.
  rewrite sma_sum_app by lia.
  cbn [length firstn]. f_equal.
  apply ema_loop_app.
Qed.

Lemma calculateEMA_append_witness :
  firstn 4 (calculateEMA ([10; 20; 60; 30] ++ [5; 90]) 3) =
  calculateEMA [10; 20; 60; 30] 3.
Proof.
  apply (calculateEMA_append [10; 20; 60; 30] [5; 90] 3); [lia|cbn; lia].
Defined.

(** ** The detector: invariant and transition table *)

Lemma bullish_dec (ind : TechnicalIndicators) : bullish ind \/ ~ bullish ind.
Proof.
  unfold bullish.
  destruct (Qlt_le_dec (ema144 ind) (ema12 ind));
    [|right; intros (H & _); apply (Qlt_not_le _ _ H); assumption].
  destruct (Qlt_le_dec (ema169 ind) (ema144 ind));
    [|right; intros (_ & H & _); apply (Qlt_not_le _ _ H); assumption].
  destruct (Qlt_le_dec (ema576 ind) (ema169 ind));
    [|right; intros (_ & _ & H & _); apply (Qlt_not_le _ _ H); assumption].
  destruct (Qlt_le_dec (ema676 ind) (ema576 ind));
    [|right; intros (_ & _ & _ & H); apply (Qlt_not_le _ _ H); assumption].
  left. auto.
Qed.

Lemma bearish_dec (ind : TechnicalIndicators) : bearish ind \/ ~ bearish ind.
Proof.
  unfold bearish.
  destruct (Qlt_le_dec (ema12 ind) (ema144 ind));
    [|right; intros (H & _); apply (Qlt_not_le _ _ H); assumption].
  destruct (Qlt_le_dec (ema144 ind) (ema169 ind));
    [|right; intros (_ & H & _); apply (Qlt_not_le _ _ H); assumption].
  destruct (Qlt_le_dec (ema169 ind) (ema576 ind));
    [|right; intros (_ & _ & H & _); apply (Qlt_not_le _ _ H); assumption].
  destruct (Qlt_le_dec (ema576 ind) (ema676 ind));
    [|right; intros (_ & _ & _ & H); apply (Qlt_not_le _ _ H); assumption].
  left. auto.
Qed.

Lemma classify_cases (ind : TechnicalIndicators) :
  (classify ind = 1%Z /\ bullish ind) \/
  (classify ind = 2%Z /\ bearish ind) \/
  (classify ind = 0%Z /\ ~ bullish ind /\ ~ bearish ind).
Proof.
  destruct (bullish_dec ind) as [B|NB].
  - left. split; [apply classify_bullish|]; assumption.
  - destruct (bearish_dec ind) as [S|NS].
    + right; left. split; [apply classify_bearish|]; assumption.
    + right; right. split; [apply classify_none|]; auto.
Qed.

Ltac all_parts :=
  match goal with
  | |- _ /\ _ => split; all_parts
  | _ => first [assumption | reflexivity]
  end.

Ltac order_of H := first [apply leb_le in H | apply leb_gt in H].

Ltac some_case :=
  first [solve [all_parts] | left; some_case | right; some_case].

(** The outcome of the decision block for each order and each of the two
    states, in terms of the order of the rationals. *)
Lemma decide_cases (ls st : Z) (cur : CandleData) (ind : TechnicalIndicators) :
  (st = 0 \/ st = 1)%Z ->
  (ls = 0%Z /\ decide ls st cur ind = (none, 0%Z)) \/
  (ls = 1%Z /\ st = 0%Z /\
   ((low cur <= ema144 ind /\ ema12 ind <= close cur /\
     decide ls st cur ind = (long, 0%Z)) \/
    (low cur <= ema144 ind /\ close cur < ema12 ind /\
     decide ls st cur ind = (none, 1%Z)) \/
    (ema144 ind < low cur /\ decide ls st cur ind = (none, 0%Z)))) \/
  (ls = 1%Z /\ st = 1%Z /\
   ((ema12 ind <= close cur /\ decide ls st cur ind = (long, 0%Z)) \/
    (close cur < ema12 ind /\ ema12 ind <= ema144 ind /\
     decide ls st cur ind = (none, 0%Z)) \/
    (close cur < ema12 ind /\ ema144 ind < ema12 ind /\
     decide ls st cur ind = (none, 1%Z)))) \/
  (ls = 2%Z /\ st = 0%Z /\
   ((ema144 ind <= high cur /\ close cur <= ema12 ind /\
     decide ls st cur ind = (short, 0%Z)) \/
    (ema144 ind <= high cur /\ ema12 ind < close cur /\
     decide ls st cur ind = (none, 1%Z)) \/
    (high cur < ema144 ind /\ decide ls st cur ind = (none, 0%Z)))) \/
  (ls = 2%Z /\ st = 1%Z /\
   ((close cur <= ema12 ind /\ decide ls st cur ind = (short, 0%Z)) \/
    (ema12 ind < close cur /\ ema144 ind <= ema12 ind /\
     decide ls st cur ind = (none, 0%Z)) \/
    (ema12 ind < close cur /\ ema12 ind < ema144 ind /\
     decide ls st cur ind = (none, 1%Z)))) \/
  ((ls <> 0 /\ ls <> 1 /\ ls <> 2)%Z /\ decide ls st cur ind = (none, st)).
Proof.
  intros Hst. unfold decide, Num.geb.
  destruct (ls =? 0)%Z eqn:L0; [apply Z.eqb_eq in L0; left; auto|].
  apply Z.eqb_neq in L0. right.
  destruct (ls =? 1)%Z eqn:L1.
  - apply Z.eqb_eq in L1. destruct Hst as [-> | ->]; cbn [Z.eqb Pos.eqb].
    + left. split; [exact L1|]. split; [reflexivity|].
      destruct (Num.leb (low cur) (ema144 ind)) eqn:A;
        destruct (Num.leb (ema12 ind) (close cur)) eqn:B; cbn [andb];
        order_of A; order_of B; some_case.
    + right; left. split; [exact L1|]. split; [reflexivity|].
      destruct (Num.leb (ema12 ind) (close cur)) eqn:A;
        destruct (Num.leb (ema12 ind) (ema144 ind)) eqn:B;
        order_of A; order_of B; some_case.
  - apply Z.eqb_neq in L1. right; right.
    destruct (ls =? 2)%Z eqn:L2.
    + apply Z.eqb_eq in L2. destruct Hst as [-> | ->]; cbn [Z.eqb Pos.eqb].
      * left. split; [exact L2|]. split; [reflexivity|].
        destruct (Num.leb (ema144 ind) (high cur)) eqn:A;
          destruct (Num.leb (close cur) (ema12 ind)) eqn:B; cbn [andb];
          order_of A; order_of B; some_case.
      * right; left. split; [exact L2|]. split; [reflexivity|].
        destruct (Num.leb (close cur) (ema12 ind)) eqn:A;
          destruct (Num.leb (ema144 ind) (ema12 ind)) eqn:B;
          order_of A; order_of B; some_case.
    + apply Z.eqb_neq in L2. right; right. auto.
Qed.

Lemma decide_well_formed (ls st : Z) (cur : CandleData)
  (ind : TechnicalIndicators) :
  (st = 0 \/ st = 1)%Z ->
  (snd (decide ls st cur ind) = 0 \/ snd (decide ls st cur ind) = 1)%Z /\
  (snd (decide ls st cur ind) = 1%Z -> ls <> 0%Z).
Proof.
  intro Hst.
  destruct (decide_cases ls st cur ind Hst)
    as [(L & D)|[(L & S & [(_ & _ & D)|[(_ & _ & D)|(_ & D)]])
       |[(L & S & [(_ & D)|[(_ & _ & D)|(_ & _ & D)]])
       |[(L & S & [(_ & _ & D)|[(_ & _ & D)|(_ & D)]])
       |[(L & S & [(_ & D)|[(_ & _ & D)|(_ & _ & D)]])
       |((L0 & L1 & L2) & D)]]]]];
    rewrite D; cbn [snd]; split; auto; intro; lia.
Qed.

Lemma analyzeSignal_well_formed (this : VegasTunnel)
  (candles : list CandleData) :
  well_formed this -> well_formed (snd (analyzeSignal this candles)).
Proof.
  intros WF. pose proof WF as (Hst & Hls & Harm). unfold analyzeSignal.
  destruct (length candles <? 676)%nat; [exact WF|].
  destruct (calculateIndicators candles) as [ind|]; [|exact WF].
  destruct (lastCandle candles) as [cur|]; [|exact WF].
  destruct (decide_well_formed (classify ind) (state this) cur ind Hst)
    as [H1 H2].
  destruct (decide (classify ind) (state this) cur ind) as [ty st'].
  cbn [snd] in *. unfold well_formed. cbn [state longShort].
  split; [exact H1|]. split; [|exact H2].
  destruct (classify_cases ind) as [[-> _]|[[-> _]|[-> _]]]; auto.
Qed.

Lemma analyzeAll_keeps_well_formed (feeds : list (list CandleData)) :
  forall this, well_formed this -> well_formed (snd (analyzeAll this feeds)).
Proof.
  induction feeds as [|candles rest IH]; intros this WF; [exact WF|].
  cbn [analyzeAll].
  pose proof (analyzeSignal_well_formed this candles WF) as WF'.
  destruct (analyzeSignal this candles) as [r this']. cbn [snd] in WF'.
  specialize (IH this' WF').
  destruct (analyzeAll this' rest) as [rs final]. exact IH.
Qed.

(** X7.  Whatever series a new detector is fed, call after call, its [state] is
    0 or 1, its [longShort] is 0, 1 or 2, and it is armed ([state] 1) only
    under an order ([longShort] 1 or 2). *)
Theorem reachable_well_formed (feeds : list (list CandleData)) :
  well_formed (snd (analyzeAll newVegasTunnel feeds)).
Proof.
  apply analyzeAll_keeps_well_formed.
  unfold well_formed, newVegasTunnel. cbn [state longShort].
  split; [auto|]. split; [auto|]. intro H. discriminate.
Qed.

(** X8.  [analyzeSignal] returns [null] exactly for the series of fewer than 676
    candles. *)
Theorem analyzeSignal_null_iff (this : VegasTunnel) (candles : list CandleData) :
  fst (analyzeSignal this candles) = None <-> (length candles < 676)%nat.
Proof.
  split.
  - intro H. destruct (Nat.lt_ge_cases (length candles) 676) as [L|L];
      [exact L|].
    destruct (evaluates_exists candles L) as (ind & cur & HE).
    rewrite (analyzeSignal_evaluates this candles ind cur HE) in H.
    discriminate.
  - intro L. unfold analyzeSignal.
    apply Nat.ltb_lt in L. rewrite L. reflexivity.
Qed.

Ltac order_facts :=
  repeat match goal with
         | H : Num.leb _ _ = true |- _ => apply leb_le in H
         | H : Num.leb _ _ = false |- _ => apply leb_gt in H
         end.

Ltac by_table :=
  unfold emitted, decide, Num.geb; cbn [Z.eqb Pos.eqb fst snd];
  repeat match goal with
         | |- context [Num.leb ?a ?b] =>
             let E := fresh "E" in destruct (Num.leb a b) eqn:E
         end;
  cbn [andb fst snd sig_type state]; order_facts;
  unfold bullish, bearish in *;
  repeat match goal with
         | |- _ /\ _ => split
         | |- _ <-> _ => split
         end;
  intros;
  repeat match goal with
         | H : _ /\ _ |- _ => destruct H
         | H : _ \/ _ |- _ => destruct H
         end;
  first [ reflexivity
        | discriminate
        | exfalso; lra
        | match goal with
          | N : ~ _ |- _ => exfalso; apply N; solve [all_parts]
          end
        | solve [all_parts]
        | left; solve [all_parts]
        | right; solve [all_parts] ].

(** X9.  Transition table of an unarmed detector.  It reports 'long' exactly
    under bullish order with low <= ema144 and close >= ema12, 'short'
    exactly under bearish order with high >= ema144 and close <= ema12, and
    it comes out armed exactly when the band is touched without the
    confirming close. *)
Theorem unarmed_table (this : VegasTunnel) (candles : list CandleData)
  (ind : TechnicalIndicators) (cur : CandleData) :
  evaluates candles ind cur ->
  state this = 0%Z ->
  let r := analyzeSignal this candles in
  (emitted r = long <->
   bullish ind /\ low cur <= ema144 ind /\ ema12 ind <= close cur) /\
  (emitted r = short <->
   bearish ind /\ ema144 ind <= high cur /\ close cur <= ema12 ind) /\
  (state (snd r) = 1%Z <->
   (bullish ind /\ low cur <= ema144 ind /\ close cur < ema12 ind) \/
   (bearish ind /\ ema144 ind <= high cur /\ ema12 ind < close cur)).
Proof.
  intros HE HS r. unfold r.
  rewrite (analyzeSignal_evaluates this candles ind cur HE), HS.
  destruct (classify_cases ind) as [[-> B]|[[-> B]|[-> [NB NS]]]];
    by_table.
Qed.

(** X10.  Transition table of an armed detector.  It reports 'long' exactly
    under bullish order with close >= ema12, 'short' exactly under bearish
    order with close <= ema12, and it stays armed exactly when the order
    holds and the confirming close is missing: only a signal or the loss of
    the order disarms it. *)
Theorem armed_table (this : VegasTunnel) (candles : list CandleData)
  (ind : TechnicalIndicators) (cur : CandleData) :
  evaluates candles ind cur ->
  state this = 1%Z ->
  let r := analyzeSignal this candles in
  (emitted r = long <-> bullish ind /\ ema12 ind <= close cur) /\
  (emitted r = short <-> bearish ind /\ close cur <= ema12 ind) /\
  (state (snd r) = 1%Z <->
   (bullish ind /\ close cur < ema12 ind) \/
   (bearish ind /\ ema12 ind < close cur)).
Proof.
  intros HE HS r. unfold r.
  rewrite (analyzeSignal_evaluates this candles ind cur HE), HS.
  destruct (classify_cases ind) as [[-> B]|[[-> B]|[-> [NB NS]]]];
    by_table.
Qed.

Lemma unarmed_table_witness :
  exists ind : TechnicalIndicators,
    let r := analyzeSignal newVegasTunnel rising_series in
    (emitted r = long <->
     bullish ind /\ low (candle 1 2 1 2) <= ema144 ind /\
     ema12 ind <= close (candle 1 2 1 2)) /\
    (emitted r = short <->
     bearish ind /\ ema144 ind <= high (candle 1 2 1 2) /\
     close (candle 1 2 1 2) <= ema12 ind) /\
    (state (snd r) = 1%Z <->
     (bullish ind /\ low (candle 1 2 1 2) <= ema144 ind /\
      close (candle 1 2 1 2) < ema12 ind) \/
     (bearish ind /\ ema144 ind <= high (candle 1 2 1 2) /\
      ema12 ind < close (candle 1 2 1 2))).
Proof.
  destruct (flat_then_evaluates 1 676 [] (candle 1 2 1 2) (le_n _))
    as (ind & HE & _).
  exists ind.
  apply (unarmed_table newVegasTunnel rising_series ind (candle 1 2 1 2) HE).
  reflexivity.
Defined.

Lemma armed_table_witness :
  exists ind : TechnicalIndicators,
    let r := analyzeSignal {| state := 1; longShort := 1 |} recovery_series in
    (emitted r = long <->
     bullish ind /\ ema12 ind <= close (candle 11 21 11 21)) /\
    (emitted r = short <->
     bearish ind /\ close (candle 11 21 11 21) <= ema12 ind) /\
    (state (snd r) = 1%Z <->
     (bullish ind /\ close (candle 11 21 11 21) < ema12 ind) \/
     (bearish ind /\ ema12 ind < close (candle 11 21 11 21))).
Proof.
  destruct (flat_then_evaluates 1 676 [tick 101; candle 101 101 2 11]
              (candle 11 21 11 21) (le_n _))
    as (ind & HE & _).
  exists ind.
  apply (armed_table {| state := 1; longShort := 1 |} recovery_series ind
           (candle 11 21 11 21) HE).
  reflexivity.
Defined.

(** X11.  An armed detector waits without limit: over any number of calls under
    bullish order whose candles close below ema12, every call reports
    'none' and the detector stays armed. *)
Theorem armed_waits (feeds : list (list CandleData)) :
  forall this : VegasTunnel,
    state this = 1%Z ->
    Forall keeps_waiting_long feeds ->
    Forall reports_none (fst (analyzeAll this feeds)) /\
    state (snd (analyzeAll this feeds)) = 1%Z /\
    (feeds <> [] -> longShort (snd (analyzeAll this feeds)) = 1%Z).
Proof.
  induction feeds as [|candles rest IH]; intros this HS HF.
  - cbn [analyzeAll fst snd]. split; [constructor|]. split; [exact HS|].
    intro H. congruence.
  - inversion HF as [|? ? (ind & cur & HE & HB & HC) HR]; subst.
    cbn [analyzeAll].
    rewrite (analyzeSignal_evaluates this candles ind cur HE).
    rewrite (classify_bullish ind HB), HS.
    pose proof HB as (H1 & _).
    assert (D : decide 1 1 cur ind = (none, 1%Z)) by by_order.
    rewrite D. cbn [fst snd].
    destruct (IH {| state := 1; longShort := 1 |} eq_refl HR) as (A & B & C).
    assert (C' : longShort
                   (snd (analyzeAll {| state := 1; longShort := 1 |} rest))
                 = 1%Z).
    { destruct rest as [|c rest']; [reflexivity|]. apply C. discriminate. }
    destruct (analyzeAll {| state := 1; longShort := 1 |} rest) as [rs final].
    cbn [fst snd] in *. split; [|split].
    + constructor; [|exact A]. eexists. split; reflexivity.
    + exact B.
    + intros _. exact C'.
Qed.

Lemma armed_waits_witness :
  Forall reports_none
    (fst (analyzeAll {| state := 1; longShort := 1 |}
            [pullback_series; pullback_series])) /\
  state (snd (analyzeAll {| state := 1; longShort := 1 |}
                [pullback_series; pullback_series])) = 1%Z /\
  longShort (snd (analyzeAll {| state := 1; longShort := 1 |}
                    [pullback_series; pullback_series])) = 1%Z.
Proof.
  assert (W : keeps_waiting_long pullback_series).
  { destruct (flat_then_evaluates 1 676 [tick 101] (candle 101 101 2 11)
                (le_n _))
      as (ind & HE & A12 & A144 & A169 & A576 & A676).
    exists ind, (candle 101 101 2 11). split; [exact HE|]. split.
    - by_snapshot A12 A144 A169 A576 A676.
    - cbn [close candle]. by_snapshot A12 A144 A169 A576 A676. }
  destruct (armed_waits [pullback_series; pullback_series]
              {| state := 1; longShort := 1 |} eq_refl)
    as (A & B & C).
  - constructor; [exact W|]. constructor; [exact W|]. constructor.
  - split; [exact A|]. split; [exact B|]. apply C. discriminate.
Defined.

(** ** The snapshot *)

(** X5.  For a series of at least 676 candles each of the five reads
    [ema[lastIndex]] of [calculateIndicators] is inside its array: the
    snapshot holds the last value of each EMA series, never [undefined]. *)
Theorem calculateIndicators_reads_last (candles : list CandleData) :
  (676 <= length candles)%nat ->
  let closes := map close candles in
  let lastIndex := (length candles - 1)%nat in
  exists ind : TechnicalIndicators,
    calculateIndicators candles = Some ind /\
    nth_error (calculateEMA closes 12) lastIndex = Some (ema12 ind) /\
    nth_error (calculateEMA closes 144) lastIndex = Some (ema144 ind) /\
    nth_error (calculateEMA closes 169) lastIndex = Some (ema169 ind) /\
    nth_error (calculateEMA closes 576) lastIndex = Some (ema576 ind) /\
    nth_error (calculateEMA closes 676) lastIndex = Some (ema676 ind).
Proof.
  intros L closes lastIndex.
  eexists. split; [apply calculateIndicators_enough; exact L|].
  cbv zeta. cbn [ema12 ema144 ema169 ema576 ema676]. unfold at_index.
  assert (R : forall period, 0 < period ->
            nth_error (calculateEMA closes period) lastIndex =
            Some (nth lastIndex (calculateEMA closes period) 0)).
  { intros period HP. apply nth_error_nth'.
    rewrite calculateEMA_length by exact HP.
    unfold closes, lastIndex. rewrite length_map. lia. }
  repeat split; apply R; reflexivity.
Qed.

Lemma calculateIndicators_reads_last_witness :
  exists ind : TechnicalIndicators,
    calculateIndicators rising_series = Some ind /\
    nth_error (calculateEMA (map close rising_series) 12) 676 =
    Some (ema12 ind).
Proof.
  destruct (calculateIndicators_reads_last rising_series)
    as (ind & H & H12 & _).
  - unfold rising_series. rewrite !length_app, repeat_length. cbn [length]. lia.
  - exists ind. split; [exact H|]. exact H12.
Defined.

(** ** calculateEMA: periods that are not whole numbers *)

Lemma ltb_ceiling (i : nat) (bound : number) :
  Num.ltb (Num.of_nat i) bound = (i <? Z.to_nat (Qceiling bound))%nat.
Proof.
  unfold Num.of_nat. destruct (i <? Z.to_nat (Qceiling bound))%nat eqn:E.
  - apply Nat.ltb_lt in E. apply ltb_lt.
    apply Qle_lt_trans with (inject_Z (Qceiling bound - 1)).
    + rewrite <- Zle_Qle. lia.
    + apply Qceiling_lt.
  - apply Nat.ltb_ge in E. apply ltb_ge.
    destruct (Z.le_gt_cases (Qceiling bound) (Z.of_nat i)) as [H|H]; [|lia].
    apply Qle_trans with (inject_Z (Qceiling bound)).
    + apply Qle_ceiling.
    + rewrite <- Zle_Qle. exact H.
Qed.




(** ** calculateEMA: what holds for every period > 0 *)

Lemma sma_sum_fold (ps : list number) (bound : number) :
  forall (i : nat) (sum : number),
    sma_sum ps i bound sum =
    fold_left Qplus (firstn (Z.to_nat (Qceiling bound) - i) ps) sum.
Proof.
  induction ps as [|p ps IH]; intros i sum; cbn [sma_sum].
  - rewrite firstn_nil. reflexivity.
  - rewrite ltb_ceiling.
    destruct (i <? Z.to_nat (Qceiling bound))%nat eqn:E.
    + apply Nat.ltb_lt in E. rewrite IH.
      replace (Z.to_nat (Qceiling bound) - i)%nat
        with (S (Z.to_nat (Qceiling bound) - S i)) by lia.
      reflexivity.
    + apply Nat.ltb_ge in E.
      replace (Z.to_nat (Qceiling bound) - i)%nat with 0%nat by lia.
      reflexivity.
Qed.

Lemma ceiling_of_nat (b : number) (m : nat) :
  b == Num.of_nat m -> Z.to_nat (Qceiling b) = m.
Proof.
  intro E. rewrite E. unfold Num.of_nat. rewrite Qceiling_Z. lia.
Qed.

(** C4, as amended.  For a price sequence of length N >= 1 and every
    period P > 0, whole or not, [calculateEMA] returns exactly N values.
    With b = min(P, N), the value at index 0 is the sum of the first
    ceil(b) prices, taken from 0 one price after the other, divided by b;
    when b is a whole number m (P a whole number, or P >= N) this is the
    arithmetic mean of the first min(P, N) prices.  The value at every
    index i >= 1 is price[i] * k + ema[i-1] * (1 - k) with
    k = 2 / (P + 1). *)
Theorem calculateEMA_spec (prices : list number) (period : number) :
  (1 <= length prices)%nat -> 0 < period ->
  let ema := calculateEMA prices period in
  let k := 2 / (period + 1) in
  let b := Num.min period (Num.of_nat (length prices)) in
  length ema = length prices /\
  at_index ema 0 =
    running_sum (firstn (Z.to_nat (Qceiling b)) prices) / b /\
  (forall m : nat, b == Num.of_nat m ->
     at_index ema 0 == running_sum (firstn m prices) / Num.of_nat m) /\
  forall i : nat, (1 <= i < length prices)%nat ->
    at_index ema i = at_index prices i * k + at_index ema (i - 1) * (1 - k).
Proof.
  intros HN HP ema k b.
  assert (S0 : at_index ema 0 =
               running_sum (firstn (Z.to_nat (Qceiling b)) prices) / b).
  { unfold ema, calculateEMA. destruct prices as [|p rest]; [cbn in HN; lia|].
    pose proof HP as HP'. apply leb_gt in HP'. rewrite HP'. cbv zeta.
    fold b. unfold at_index. cbn [nth].
    rewrite sma_sum_fold, Nat.sub_0_r. reflexivity. }
  split; [apply calculateEMA_length; exact HP|].
  split; [exact S0|]. split.
  - intros m Hm. rewrite S0, (ceiling_of_nat b m Hm), Hm. reflexivity.
  - intros i Hi. apply calculateEMA_step; assumption.
Qed.

Lemma calculateEMA_spec_witness :
  let ema := calculateEMA [10; 20; 60; 30] 3 in
  length ema = 4%nat /\
  at_index ema 0 == (0 + 10 + 20 + 60) / 3 /\
  at_index ema 2 = 60 * (2 / (3 + 1)) + at_index ema 1 * (1 - 2 / (3 + 1)).
Proof.
  assert (H := calculateEMA_spec [10; 20; 60; 30] 3).
  cbv zeta in H. destruct H as (L & _ & M & R).
  - cbn [length]. lia.
  - reflexivity.
  - split; [exact L|]. split.
    + apply (M 3%nat). vm_compute. reflexivity.
    + apply (R 2%nat). cbn [length]. lia.
Defined.

(** C4, as stated, fails for a period that is not a whole number: at
    period 2.5 the value at index 0 of [1, 2, 3, 4] is (1 + 2 + 3) / 2.5
    = 12/5, which is the arithmetic mean of no run of first prices (those
    means are 1, 3/2, 2 and 5/2). *)
Lemma calculateEMA_seed_not_a_mean :
  ~ exists m : nat,
      at_index (calculateEMA [1; 2; 3; 4] 2.5) 0 == mean (firstn m [1; 2; 3; 4]).
Proof.
  intros [m H].
  destruct m as [|[|[|[|[|m]]]]]; vm_compute in H; discriminate.
Qed.

(** ** calculateEMA: the two weights *)

Lemma multiplier_weights (period : number) :
  1 <= period ->
  0 < 2 / (period + 1) /\ 2 / (period + 1) <= 1 /\
  0 <= 1 - 2 / (period + 1) /\ 1 - 2 / (period + 1) <= 1.
Proof.
  intro HP.
  assert (Hd : 0 < period + 1) by lra.
  assert (K0 : 0 < 2 / (period + 1)).
  { apply Qlt_shift_div_l; [exact Hd | lra]. }
  assert (K1 : 2 / (period + 1) <= 1).
  { apply Qle_shift_div_r; [exact Hd | lra]. }
  repeat split; lra.
Qed.

(** C7, as amended.  For every period P >= 1, whole or not, and every
    index i >= 1, ema[i] is the weighted sum
    price[i] * k + ema[i-1] * (1 - k) of price[i] and ema[i-1] whose two
    weights k = 2 / (P + 1) and 1 - k satisfy 0 < k <= 1 and
    0 <= 1 - k <= 1; at P = 1 the weight k is 1 and ema[i] is price[i]. *)
Theorem calculateEMA_weights (prices : list number) (period : number)
  (i : nat) :
  1 <= period -> (1 <= i < length prices)%nat ->
  let ema := calculateEMA prices period in
  let k := 2 / (period + 1) in
  at_index ema i = at_index prices i * k + at_index ema (i - 1) * (1 - k) /\
  (0 < k /\ k <= 1) /\ (0 <= 1 - k /\ 1 - k <= 1) /\
  (period == 1 -> k == 1 /\ at_index ema i == at_index prices i).
Proof.
  intros HP Hi ema k.
  assert (HQ : 0 < period) by lra.
  destruct (multiplier_weights period HP) as (K0 & K1 & K2 & K3).
  assert (R : at_index ema i =
              at_index prices i * k + at_index ema (i - 1) * (1 - k))
    by (apply calculateEMA_step; assumption).
  split; [exact R|]. split; [split; assumption|].
  split; [split; assumption|].
  intro E.
  assert (Ek : k == 1).
  { unfold k. rewrite E. reflexivity. }
  split; [exact Ek|]. rewrite R, Ek. ring.
Qed.

Lemma calculateEMA_weights_witness :
  (let ema := calculateEMA [10; 20; 60; 30] 3 in
   at_index ema 2 = 60 * (2 / (3 + 1)) + at_index ema 1 * (1 - 2 / (3 + 1)) /\
   (0 < 2 / (3 + 1) /\ 2 / (3 + 1) <= 1) /\
   (0 <= 1 - 2 / (3 + 1) /\ 1 - 2 / (3 + 1) <= 1)) /\
  at_index (calculateEMA [1; 2] 1) 1 == at_index [1; 2] 1.
Proof.
  split.
  - assert (H := calculateEMA_weights [10; 20; 60; 30] 3 2).
    cbv zeta in H. destruct H as (R & K & K' & _).
    + vm_compute. discriminate.
    + cbn [length]. lia.
    + split; [exact R|]. split; assumption.
  - assert (H := calculateEMA_weights [1; 2] 1 1).
    cbv zeta in H. destruct H as (_ & _ & _ & H).
    + vm_compute. discriminate.
    + cbn [length]. lia.
    + apply H. reflexivity.
Defined.

(** C7, as stated, fails in three ways.  At period 1 the weight k is 1:
    ema[1] of [1, 2] is price[1] = 2, not strictly between 2 and 1.  At
    period 1/2 the weight k is 4/3: ema[1] of [1, 4] is 14/3, above both
    price[1] = 4 and ema[0] = 2.  In binary64 at period 2, three prices of
    0.11 give ema[0] = 0.11 and ema[1] = 0.11000000000000001, above both
    price[1] and ema[0]. *)
Lemma calculateEMA_not_between :
  ~ convex_at [1; 2] 1 1 /\
  ~ convex_at [1; 4] (1 # 2) 1 /\
  (let ema := Binary64.calculateEMA Binary64.eleven_cents PrimFloat.two in
   Binary64.lies_between (Binary64.at_index Binary64.eleven_cents 1)
     (Binary64.at_index ema 0) (Binary64.at_index ema 1) = false /\
   PrimFloat.ltb (Binary64.at_index Binary64.eleven_cents 1)
     (Binary64.at_index ema 1) = true /\
   PrimFloat.ltb (Binary64.at_index ema 0) (Binary64.at_index ema 1) = true).
Proof.
  split; [|split].
  - unfold convex_at. intros [_ H].
    assert (NE : ~ at_index [1; 2] 1 ==
                   at_index (calculateEMA [1; 2] 1) (1 - 1)).
    { vm_compute. discriminate. }
    destruct (H NE) as [[A _]|[_ A]]; vm_compute in A; discriminate.
  - unfold convex_at. intros [[[_ A]|[_ A]] _]; vm_compute in A;
      apply A; reflexivity.
  - vm_compute. repeat split.
Qed.

(** ** calculateFibonacciTargets: order of the targets *)

Lemma baseRange_nonneg (entryPrice : number) (sh sl : option number) :
  0 <= entryPrice -> 0 <= baseRange entryPrice sh sl.
Proof.
  intro HE.
  assert (D : 0 <= entryPrice * 0.05).
  { apply Qmult_le_0_compat; [exact HE|]. vm_compute. discriminate. }
  unfold baseRange. destruct sh as [h|]; [|exact D].
  destruct sl as [l|]; [|exact D].
  destruct (Num.truthy h && Num.truthy l); [|exact D].
  apply Qabs_nonneg.
Qed.

(** X13.  For an entry price >= 0 the targets are ordered away from the
    entry, whatever the swing bounds:
    entry <= target1 <= target2 <= target3 for 'long' and
    target3 <= target2 <= target1 <= entry for 'short'. *)
Theorem targets_ordered (entryPrice : number) (sh sl : option number) :
  0 <= entryPrice ->
  let tl := calculateFibonacciTargets entryPrice dir_long sh sl in
  let ts := calculateFibonacciTargets entryPrice dir_short sh sl in
  (entryPrice <= target1 tl /\ target1 tl <= target2 tl /\
   target2 tl <= target3 tl) /\
  (target3 ts <= target2 ts /\ target2 ts <= target1 ts /\
   target1 ts <= entryPrice).
Proof.
  intros HE tl ts. unfold tl, ts, calculateFibonacciTargets.
  cbn [target1 target2 target3].
  pose proof (baseRange_nonneg entryPrice sh sl HE) as HR.
  set (r := baseRange entryPrice sh sl) in *. clearbody r.
  split; repeat split; lra.
Qed.

Lemma targets_ordered_witness :
  let tl := calculateFibonacciTargets 100 dir_long (Some 110) (Some 90) in
  let ts := calculateFibonacciTargets 100 dir_short (Some 110) (Some 90) in
  (100 <= target1 tl /\ target1 tl <= target2 tl /\ target2 tl <= target3 tl) /\
  (target3 ts <= target2 ts /\ target2 ts <= target1 ts /\ target1 ts <= 100).
Proof.
  apply (targets_ordered 100 (Some 110) (Some 90)).
  vm_compute. discriminate.
Defined.

(** X14.  The two swing bounds may be passed in either order: swapping
    them changes neither the test [swingHigh && swingLow] nor
    |swingHigh - swingLow|, so the targets are the same. *)
Theorem targets_swap_bounds (entryPrice : number) (direction : Direction)
  (sh sl : option number) :
  calculateFibonacciTargets entryPrice direction sl sh =
  calculateFibonacciTargets entryPrice direction sh sl.
Proof.
  assert (R : baseRange entryPrice sl sh = baseRange entryPrice sh sl).
  { unfold baseRange. destruct sh as [h|], sl as [l|]; try reflexivity.
    rewrite andb_comm. unfold Num.abs. rewrite Qabs_Qminus. reflexivity. }
  unfold calculateFibonacciTargets. rewrite R. reflexivity.
Qed.

(** X15.  [analyzeSymbol] reports what one candle alone triggers.  On a series
    of at least 676 candles it returns a 'long' signal exactly under
    bullish order with low <= ema144 and close >= ema12 of the newest
    candle, a 'short' signal exactly under bearish order with
    high >= ema144 and close <= ema12, and [null] otherwise; the entry
    price and the timestamp are the close and the timestamp of the newest
    candle.  A touch of ema144 by an earlier candle plays no part. *)
Theorem analyzeSymbol_single_candle (candles : list CandleData)
  (ind : TechnicalIndicators) (cur : CandleData)
  (normalizedSymbol timeframe : string) (leverage : number) :
  evaluates candles ind cur ->
  single_candle_outcome
    (analyzeSymbol candles normalizedSymbol timeframe leverage)
    ind cur normalizedSymbol timeframe leverage.
Proof.
  intro HE. unfold single_candle_outcome, analyzeSymbol. cbv zeta.
  rewrite (analyzeSignal_evaluates newVegasTunnel candles ind cur HE).
  cbn [fst sig_type sig_price sig_timestamp state newVegasTunnel].
  destruct (classify_cases ind) as [[-> B]|[[-> B]|[-> [NB NS]]]];
    unfold decide, Num.geb; cbn [Z.eqb Pos.eqb];
    repeat match goal with
           | |- context [Num.leb ?a ?b] =>
               let E := fresh "E" in destruct (Num.leb a b) eqn:E
           end;
    cbn [andb fst ts_direction ts_entryPrice ts_timestamp ts_symbol
           ts_timeframe ts_leverage];
    order_facts;
    repeat match goal with
           | |- _ /\ _ => split
           end;
    try reflexivity;
    try solve [left; all_parts];
    try solve [right; all_parts];
    try (intros (S & A1 & A2); unfold bullish, bearish in *;
         repeat match goal with
                | H : _ /\ _ |- _ => destruct H
                end;
         first [lra | contradiction | apply NB; all_parts | apply NS; all_parts]).
Qed.

Lemma rising_series_reported :
  exists ts : TradingSignal,
    analyzeSymbol rising_series "BTC"%string "1h"%string 10 = Some ts.
Proof.
  destruct (flat_then_evaluates 1 676 [] (candle 1 2 1 2) (le_n _))
    as (ind & HE & E12 & E144 & E169 & E576 & E676).
  assert (HB : bullish ind) by by_snapshot E12 E144 E169 E576 E676.
  assert (HL : low (candle 1 2 1 2) <= ema144 ind)
    by (cbn [low candle]; by_snapshot E12 E144 E169 E576 E676).
  assert (HC : ema12 ind <= close (candle 1 2 1 2))
    by (cbn [close candle]; by_snapshot E12 E144 E169 E576 E676).
  unfold analyzeSymbol. cbv zeta.
  rewrite (analyzeSignal_evaluates newVegasTunnel rising_series ind _ HE).
  rewrite (classify_bullish ind HB).
  assert (D : decide 1 (state newVegasTunnel) (candle 1 2 1 2) ind
              = (long, 0%Z)).
  { cbn [state newVegasTunnel]. by_order. }
  rewrite D. cbn [fst sig_type]. eexists. reflexivity.
Qed.

Lemma analyzeSymbol_single_candle_witness :
  exists ind : TechnicalIndicators,
    single_candle_outcome
      (analyzeSymbol rising_series "BTC"%string "1h"%string 10)
      ind (candle 1 2 1 2) "BTC"%string "1h"%string 10.
Proof.
  destruct (flat_then_evaluates 1 676 [] (candle 1 2 1 2) (le_n _))
    as (ind & HE & _).
  exists ind.
  exact (analyzeSymbol_single_candle rising_series ind (candle 1 2 1 2)
           "BTC"%string "1h"%string 10 HE).
Defined.

Lemma fold_max_spec (rest : list number) :
  forall x,
    let m := fold_left (fun m y => if Num.ltb m y then y else m) rest x in
    In m (x :: rest) /\ Forall (fun y => y <= m) (x :: rest).
Proof.
  induction rest as [|y rest IH]; intro x; cbn [fold_left].
  - split; [left; reflexivity|]. constructor; [apply Qle_refl|constructor].
  - destruct (Num.ltb x y) eqn:E.
    + apply ltb_lt in E. destruct (IH y) as [I F]. split.
      * right. exact I.
      * inversion F as [|? ? Hy Hr]; subst.
        constructor; [|constructor; assumption].
        apply Qle_trans with y; [apply Qlt_le_weak; exact E|exact Hy].
    + apply ltb_ge in E. destruct (IH x) as [I F]. split.
      * destruct I as [I|I]; [left; exact I|right; right; exact I].
      * inversion F as [|? ? Hx Hr]; subst.
        constructor; [exact Hx|]. constructor; [|exact Hr].
        apply Qle_trans with x; assumption.
Qed.

Lemma fold_min_spec (rest : list number) :
  forall x,
    let m := fold_left (fun m y => if Num.ltb y m then y else m) rest x in
    In m (x :: rest) /\ Forall (fun y => m <= y) (x :: rest).
Proof.
  induction rest as [|y rest IH]; intro x; cbn [fold_left].
  - split; [left; reflexivity|]. constructor; [apply Qle_refl|constructor].
  - destruct (Num.ltb y x) eqn:E.
    + apply ltb_lt in E. destruct (IH y) as [I F]. split.
      * right. exact I.
      * inversion F as [|? ? Hy Hr]; subst.
        constructor; [|constructor; assumption].
        apply Qle_trans with y; [exact Hy|apply Qlt_le_weak; exact E].
    + apply ltb_ge in E. destruct (IH x) as [I F]. split.
      * destruct I as [I|I]; [left; exact I|right; right; exact I].
      * inversion F as [|? ? Hx Hr]; subst.
        constructor; [exact Hx|]. constructor; [|exact Hr].
        apply Qle_trans with x; assumption.
Qed.

Lemma slice_last_length {A : Type} (n : nat) (a : list A) :
  (n <= length a)%nat -> length (slice_last n a) = n.
Proof. intro H. unfold slice_last. rewrite length_skipn. lia. Qed.

(** X16.  The targets of a reported signal are built on the extremes of the last
    50 candles: the swing high is the greatest of their highs, the swing
    low the least of their lows, and both are passed on to
    [calculateFibonacciTargets] with the entry price and the direction. *)
Theorem analyzeSymbol_swing (candles : list CandleData)
  (normalizedSymbol timeframe : string) (leverage : number)
  (ts : TradingSignal) :
  analyzeSymbol candles normalizedSymbol timeframe leverage = Some ts ->
  let recent := slice_last 50 candles in
  exists hi lo : number,
    length recent = 50%nat /\
    In hi (map high recent) /\ In lo (map low recent) /\
    (forall c, In c recent -> high c <= hi /\ lo <= low c) /\
    ts_targets ts =
    calculateFibonacciTargets (ts_entryPrice ts) (ts_direction ts)
      (Some hi) (Some lo).
Proof.
  intros H recent.
  assert (L : (676 <= length candles)%nat).
  { destruct (Nat.lt_ge_cases (length candles) 676) as [L|L]; [|exact L].
    exfalso. revert H. unfold analyzeSymbol. cbv zeta.
    unfold analyzeSignal. apply Nat.ltb_lt in L. rewrite L.
    discriminate. }
  assert (R : length recent = 50%nat) by (apply slice_last_length; lia).
  destruct (map high recent) as [|h hs] eqn:EH.
  { apply (f_equal (@length _)) in EH. rewrite length_map, R in EH.
    discriminate. }
  destruct (map low recent) as [|l ls] eqn:EL.
  { apply (f_equal (@length _)) in EL. rewrite length_map, R in EL.
    discriminate. }
  destruct (fold_max_spec hs h) as [IH FH].
  destruct (fold_min_spec ls l) as [IL FL].
  eexists; eexists. split; [exact R|]. split; [exact IH|]. split; [exact IL|].
  split.
  - intros c Hc. rewrite Forall_forall in FH, FL. split.
    + apply FH. rewrite <- EH. apply in_map. exact Hc.
    + apply FL. rewrite <- EL. apply in_map. exact Hc.
  - revert H. unfold analyzeSymbol. cbv zeta. fold recent.
    rewrite EH, EL. unfold Math_max, Math_min.
    destruct (fst (analyzeSignal newVegasTunnel candles)) as [sig|];
      [|discriminate].
    destruct (sig_type sig); [| |discriminate];
      intro H; injection H as <-; reflexivity.
Qed.

Lemma analyzeSymbol_swing_witness :
  exists (ts : TradingSignal) (hi lo : number),
    analyzeSymbol rising_series "BTC"%string "1h"%string 10 = Some ts /\
    In hi (map high (slice_last 50 rising_series)) /\
    In lo (map low (slice_last 50 rising_series)) /\
    ts_targets ts =
    calculateFibonacciTargets (ts_entryPrice ts) (ts_direction ts)
      (Some hi) (Some lo).
Proof.
  destruct rising_series_reported as (ts & H).
  destruct (analyzeSymbol_swing rising_series "BTC"%string "1h"%string 10 ts H)
    as (hi & lo & _ & A & B & _ & C).
  exists ts, hi, lo.
  split; [exact H|]. split; [exact A|]. split; [exact B|exact C].
Defined.

(** ** normalizeSymbol and SYMBOL_MAPPING of [price-data.ts] *)

Lemma toUpperCase_app (a b : string) :
  toUpperCase (a ++ b) = (toUpperCase a ++ toUpperCase b)%string.
Proof.
  induction a as [|c a IH]; cbn [String.append toUpperCase]; [reflexivity|].
  rewrite IH. reflexivity.
Qed.

Lemma length_append (a b : string) :
  String.length (a ++ b) = (String.length a + String.length b)%nat.
Proof.
  induction a as [|c a IH]; cbn [String.append String.length]; [reflexivity|].
  rewrite IH. reflexivity.
Qed.

Lemma strip_suffix_app (suffix p : string) :
  strip_suffix suffix (p ++ suffix) = Some p.
Proof.
  induction p as [|c p IH].
  - cbn [String.append]. destruct suffix; cbn [strip_suffix];
      rewrite String.eqb_refl; reflexivity.
  - cbn [String.append strip_suffix].
    destruct (String.eqb (String c (p ++ suffix)) suffix) eqn:E.
    + apply String.eqb_eq in E. apply (f_equal String.length) in E.
      cbn [String.length] in E. rewrite length_append in E. lia.
    + rewrite IH. reflexivity.
Qed.

Lemma strip_suffix_Some (suffix : string) :
  forall s p, strip_suffix suffix s = Some p -> s = (p ++ suffix)%string.
Proof.
  induction s as [|c s IH]; intros p H.
  - cbn [strip_suffix] in H.
    destruct (String.eqb EmptyString suffix) eqn:E; [|discriminate].
    apply String.eqb_eq in E. injection H as <-. exact E.
  - cbn [strip_suffix] in H.
    destruct (String.eqb (String c s) suffix) eqn:E.
    + apply String.eqb_eq in E. injection H as <-. exact E.
    + destruct (strip_suffix suffix s) as [q|] eqn:Q; [|discriminate].
      injection H as <-. cbn [String.append]. f_equal. apply IH. reflexivity.
Qed.

Lemma usd_not_usdt (a : string) :
  forall p, (a ++ "USD")%string <> (p ++ "USDT")%string.
Proof.
  induction a as [|c a IH]; intros p H.
  - apply (f_equal String.length) in H. rewrite !length_append in H.
    cbn [String.length] in H. destruct p as [|c' p]; [discriminate|].
    cbn [String.length] in H. lia.
  - destruct p as [|c' p].
    + cbn [String.append] in H. injection H as _ H.
      destruct a as [|d a]; [discriminate|].
      apply (f_equal String.length) in H. cbn [String.append String.length] in H.
      rewrite length_append in H. cbn [String.length] in H. lia.
    + cbn [String.append] in H. injection H as _ H. exact (IH p H).
Qed.

(** X17.  A symbol followed by USDT or USD, in upper or in lower case, is
    normalised to the symbol in upper case. *)
Theorem normalizeSymbol_strips_quote (s : string) :
  ascii_only s ->
  normalizeSymbol (s ++ "USDT") = toUpperCase s /\
  normalizeSymbol (s ++ "usdt") = toUpperCase s /\
  normalizeSymbol (s ++ "USD") = toUpperCase s /\
  normalizeSymbol (s ++ "usd") = toUpperCase s.
Proof.
  intros _.
  assert (T : forall q, toUpperCase q = "USDT"%string ->
          normalizeSymbol (s ++ q) = toUpperCase s).
  { intros q Hq. unfold normalizeSymbol.
    rewrite toUpperCase_app, Hq, strip_suffix_app. reflexivity. }
  assert (D : forall q, toUpperCase q = "USD"%string ->
          normalizeSymbol (s ++ q) = toUpperCase s).
  { intros q Hq. unfold normalizeSymbol. rewrite toUpperCase_app, Hq.
    destruct (strip_suffix "USDT" (toUpperCase s ++ "USD")) as [p|] eqn:E.
    - apply strip_suffix_Some in E. exfalso. exact (usd_not_usdt _ _ E).
    - rewrite strip_suffix_app. reflexivity. }
  split; [apply T; reflexivity|]. split; [apply T; reflexivity|].
  split; apply D; reflexivity.
Qed.

Lemma normalizeSymbol_strips_quote_witness :
  normalizeSymbol "BtcUSDT" = "BTC"%string /\
  normalizeSymbol "ethusd" = "ETH"%string.
Proof.
  assert (A : forall s, (forall c, In c (list_ascii_of_string s) ->
                         In c (list_ascii_of_string "Btceth")) ->
                  ascii_only s).
  { intros s H c Hc. specialize (H c Hc). cbn in H.
    repeat (destruct H as [<-|H]; [cbn; lia|]). contradiction. }
  split.
  - apply (normalizeSymbol_strips_quote "Btc"). apply A.
    cbn. intuition.
  - apply (normalizeSymbol_strips_quote "eth"). apply A.
    cbn. intuition.
Defined.

(** X18.  Every key of [SYMBOL_MAPPING] is its own normal form, and so is its
    Binance pair: the key that [analyzeSymbol] looks up for 'BTC' and for
    'BTCUSDT' is the entry's key. *)
Theorem SYMBOL_MAPPING_normalized :
  Forall (fun entry : string * (string * string) =>
            normalizeSymbol (fst entry) = fst entry /\
            normalizeSymbol (fst (snd entry)) = fst entry)
         SYMBOL_MAPPING.
Proof.
  unfold SYMBOL_MAPPING. repeat constructor.
Qed.

